(** * gmtm: a Telegram webhook handler recommending movies by keyword

    Shallow embedding of [api/handler.go] and the properties of its
    request pipeline.  The source holds two revisions of the handler
    (the file is the concatenation of both); they are embedded as the
    modules [V1] (the revision returning [(string, error)] from
    [sendToClient]) and [V2] (the revision returning nothing).

    Go strings are byte sequences and are embedded as [string] (one
    [ascii] per byte).  Go's [int] values are only compared and printed,
    never computed with, and are embedded as [Z]. *)

From Stdlib Require Import ZArith Ascii String DecimalString DecimalPos DecimalZ.
From stdpp Require Import base list strings gmap.

Local Open Scope string_scope.

(* ===================================================================== *)
(** * Part I: definitions                                                 *)
(* ===================================================================== *)

(** ** The standard-library functions the handler calls *)

Module strings.

(** [strings.ReplaceAll(s, old, new)]: every non-overlapping occurrence
    of [old], scanning left to right, is replaced by [new].  [skip]
    counts the bytes of a matched occurrence still to be dropped.  The
    scan covers a non-empty [old] (an empty [old] makes Go insert [new]
    at rune boundaries, which the handler never asks for). *)
Fixpoint replace_scan (old new : string) (skip : nat) (s : string) : string :=
  match s with
  | EmptyString => EmptyString
  | String c s' =>
      match skip with
      | S k => replace_scan old new k s'
      | O =>
          if String.prefix old s
          then new +:+ replace_scan old new (String.length old - 1) s'
          else String c (replace_scan old new 0 s')
      end
  end.

Definition ReplaceAll (s old new : string) : string :=
  if String.eqb old new then s
  else match old with
       | EmptyString => s
       | String _ _ => replace_scan old new 0 s
       end.

(** [strings.Split(s, sep)] for a non-empty [sep]: the pieces of [s]
    between the non-overlapping occurrences of [sep], scanning left to
    right; [cur] is the piece being read.  The result always has one
    more piece than there are separators, so it is never empty. *)
Fixpoint split_scan (sep : string) (skip : nat) (cur : string) (s : string)
  : list string :=
  match s with
  | EmptyString => [cur]
  | String c s' =>
      match skip with
      | S k => split_scan sep k cur s'
      | O =>
          if String.prefix sep s
          then cur :: split_scan sep (String.length sep - 1) EmptyString s'
          else split_scan sep 0 (cur +:+ String c EmptyString) s'
      end
  end.

Definition Split (s sep : string) : list string :=
  split_scan sep 0 EmptyString s.

(** The white-space runes of [unicode.IsSpace], by their UTF-8 bytes:
    U+0009..U+000D, U+0020, U+0085, U+00A0, U+1680, U+2000..U+200A,
    U+2028, U+2029, U+202F, U+205F, U+3000. *)
Definition asciiSpace (b : N) : bool :=
  ((9 <=? b) && (b <=? 13) || (b =? 32))%N.

Definition space2 (b1 b2 : N) : bool :=
  ((b1 =? 194) && ((b2 =? 133) || (b2 =? 160)))%N.

Definition space3 (b1 b2 b3 : N) : bool :=
  ((b1 =? 225) && (b2 =? 154) && (b3 =? 128)
   || (b1 =? 226) && (b2 =? 128)
      && ((128 <=? b3) && (b3 <=? 138) || (b3 =? 168) || (b3 =? 169) || (b3 =? 175))
   || (b1 =? 226) && (b2 =? 129) && (b3 =? 159)
   || (b1 =? 227) && (b2 =? 128) && (b3 =? 128))%N.

(** Byte length of the white-space rune [s] starts with; 0 if it starts
    with none. *)
Definition leading_space (s : string) : nat :=
  match s with
  | EmptyString => 0
  | String c1 r1 =>
      if asciiSpace (N_of_ascii c1) then 1
      else match r1 with
           | EmptyString => 0
           | String c2 r2 =>
               if space2 (N_of_ascii c1) (N_of_ascii c2) then 2
               else match r2 with
                    | EmptyString => 0
                    | String c3 _ =>
                        if space3 (N_of_ascii c1) (N_of_ascii c2) (N_of_ascii c3)
                        then 3 else 0
                    end
           end
  end.

(** The same for the rune a string ends with, read on the reversed
    string (last byte first). *)
Definition trailing_space (r : string) : nat :=
  match r with
  | EmptyString => 0
  | String c1 r1 =>
      if asciiSpace (N_of_ascii c1) then 1
      else match r1 with
           | EmptyString => 0
           | String c2 r2 =>
               if space2 (N_of_ascii c2) (N_of_ascii c1) then 2
               else match r2 with
                    | EmptyString => 0
                    | String c3 _ =>
                        if space3 (N_of_ascii c3) (N_of_ascii c2) (N_of_ascii c1)
                        then 3 else 0
                    end
           end
  end.

(** Drop runes from the front for as long as [width] finds one. *)
Fixpoint trim_scan (width : string -> nat) (skip : nat) (s : string) : string :=
  match s with
  | EmptyString => EmptyString
  | String c s' =>
      match skip with
      | S k => trim_scan width k s'
      | O =>
          match width s with
          | O => s
          | S k => trim_scan width k s'
          end
      end
  end.

Definition TrimLeftSpace (s : string) : string := trim_scan leading_space 0 s.

Definition TrimRightSpace (s : string) : string :=
  String.rev (trim_scan trailing_space 0 (String.rev s)).

(** [strings.TrimSpace(s)]: [s] without its leading and trailing white
    space. *)
Definition TrimSpace (s : string) : string := TrimRightSpace (TrimLeftSpace s).

Definition isASCII (s : string) : bool :=
  forallb (fun c => (N_of_ascii c <? 128)%N) (list_ascii_of_string s).

Definition lowerByte (c : ascii) : ascii :=
  let b := N_of_ascii c in
  if ((65 <=? b) && (b <=? 90))%N then ascii_of_N (b + 32) else c.

Fixpoint mapBytes (f : ascii -> ascii) (s : string) : string :=
  match s with
  | EmptyString => EmptyString
  | String c s' => String (f c) (mapBytes f s')
  end.

(** [strings.ToLower(s)]: byte-wise on an ASCII-only string; otherwise
    the rune-wise mapping with the Unicode case tables, which are not
    part of this repository and are taken as the parameter
    [unicodeLower]. *)
Definition ToLower (unicodeLower : string -> string) (s : string) : string :=
  if isASCII s then mapBytes lowerByte s else unicodeLower s.

End strings.

Module strconv.

(** [strconv.Itoa(i)]: the decimal representation of [i]. *)
Definition Itoa (i : Z) : string := NilZero.string_of_int (Z.to_int i).

End strconv.

(** ** The HTML tree and the scraping library *)

Module html.

Inductive NodeType :=
| TextNode | DocumentNode | ElementNode | CommentNode | DoctypeNode.

Definition is_element (t : NodeType) : bool :=
  match t with ElementNode => true | _ => false end.

Definition is_text (t : NodeType) : bool :=
  match t with TextNode => true | _ => false end.

(** A parsed node: its type, its data (the tag name of an element, the
    content of a text node), its attributes as key/value pairs and its
    children in document order. *)
#[warnings="-register-all"]
Inductive Node :=
| mkNode (Type_ : NodeType) (Data : string)
         (Attr : list (string * string)) (Children : list Node).

Definition Type_ (n : Node) : NodeType := let 'mkNode t _ _ _ := n in t.
Definition Data (n : Node) : string := let 'mkNode _ d _ _ := n in d.
Definition Attr (n : Node) : list (string * string) := let 'mkNode _ _ a _ := n in a.
Definition Children (n : Node) : list Node := let 'mkNode _ _ _ c := n in c.

End html.

Module goquery.
Import html.

(** A selection is the list of its nodes. *)
Definition Selection := list Node.

(** Text content of one node: the data of the text nodes below it, in
    document order. *)
Fixpoint nodeText (n : Node) : string :=
  match n with
  | mkNode t d _ cs =>
      (if is_text t then d else EmptyString)
      +:+ (fix texts (l : list Node) : string :=
             match l with
             | [] => EmptyString
             | c :: l' => nodeText c +:+ texts l'
             end) cs
  end.

(** [Selection.Text()]: the combined text of every node of the
    selection, descendants included. *)
Fixpoint Text (s : Selection) : string :=
  match s with
  | [] => EmptyString
  | n :: s' => nodeText n +:+ Text s'
  end.

Definition childElements (n : Node) : list Node :=
  filter (fun c => is_element (Type_ c) = true) (Children n).

(** [Selection.Children()]: the child elements of every node of the
    selection. *)
Definition Children (s : Selection) : Selection :=
  flat_map childElements s.

(** All nodes at or below [n] that [sel] accepts, in document order
    (pre-order). *)
Fixpoint matchAll (sel : Node -> bool) (n : Node) : list Node :=
  match n with
  | mkNode _ _ _ cs =>
      ((if sel n then [n] else [])
       ++ (fix below (l : list Node) : list Node :=
             match l with
             | [] => []
             | c :: l' => matchAll sel c ++ below l'
             end) cs)%list
  end.

(** [Selection.Find(selector)]: the descendants of the selection's nodes
    that match. *)
Definition Find (sel : Node -> bool) (s : Selection) : Selection :=
  flat_map (fun n => flat_map (matchAll sel) (childElements n)) s.

(** The selector [tag[key="val"]]: an element named [tag] carrying an
    attribute [key] whose value is exactly [val]. *)
Definition tagAttrEquals (tag key val : string) (n : Node) : bool :=
  is_element (Type_ n)
  && String.eqb (Data n) tag
  && existsb (fun a => String.eqb (fst a) key && String.eqb (snd a) val) (Attr n).

End goquery.

(** ** The data model of the handler *)

(** Chat indicates the conversation to which the Message belongs. *)
Record Chat := { ID : Z }.

(** Audio refers to an audio file sent; Voice has the same fields. *)
Record Audio := { Audio_FileID : string; Duration : Z }.
Definition Voice := Audio.

(** Document refers to a file sent. *)
Record Document := { Document_FileID : string; FileName : string }.

(** Message is a Telegram object that can be found in an update. *)
Record Message := {
  Text : string;
  Chat_ : Chat;
  Audio_ : Audio;
  Voice_ : Voice;
  Document_ : Document
}.

(** Update is the object received every time a user interacts with the bot. *)
Record Update := { UpdateID : Z; Message_ : Message }.

(** Go's [error] values, told apart by the call that produced them. *)
Inductive error :=
| DecodeError (msg : string)         (* json.Decoder.Decode *)
| InvalidIdentifier (msg : string)   (* errors.New in parseIncomingRequest *)
| TransmissionError (msg : string)   (* http.PostForm *)
| BodyReadError (msg : string).      (* io.ReadAll *)

Definition Error (e : error) : string :=
  match e with
  | DecodeError m | InvalidIdentifier m | TransmissionError m | BodyReadError m => m
  end.

(** [url.Values]: form fields, each with its list of values. *)
Abbreviation Values := (gmap string (list string)).

Definition Values_Add (key value : string) (v : Values) : Values :=
  <[key := (default [] (v !! key) ++ [value])%list]> v.

(** An [*http.Response]: only the status code and the body matter here.
    Reading the body gives its bytes or fails. *)
Record Response := { StatusCode : Z; Body : string + string }.

(** The inbound [*http.Request]: its body. *)
Record Request := { Request_Body : string }.

(** What the handler has done to its [http.ResponseWriter]: the status
    code written, if any, and the bytes written. *)
Record ResponseWriter := { wroteHeader : option Z; written : string }.

(** Effects observable from outside the handler, in the order they occur. *)
Inductive Event :=
| EvLog (format : string) (args : list string)
| EvPostForm (url : string) (data : Values)
| EvReadAll (resp : Response)
| EvClose (resp : Response)
| EvVisit (url : string).

(** Everything the handler depends on but does not define: the process
    environment, the JSON decoder, the Unicode case tables, the scraped
    site and the Telegram endpoint.  The two network calls may answer
    differently depending on what has happened before.
    - [jsonDecode body] is [json.NewDecoder(body).Decode(&update)] on a
      zero [Update]: the error message, or the decoded value;
    - [collyVisit past url] is the collector's fetch of [url]: the error
      message when no document is delivered to the HTML callbacks, or the
      parsed document;
    - [httpPostForm past url data] is [http.PostForm]: the error message
      (the response is then nil), or the response. *)
Record World := {
  Getenv : string -> string;
  unicodeLower : string -> string;
  jsonDecode : string -> string + Update;
  collyVisit : list Event -> string -> string + html.Node;
  httpPostForm : list Event -> string -> Values -> string + Response
}.

(** ** Effects: state passing with run-time panics *)

Record State := { events : list Event; writer : ResponseWriter }.

Inductive panic :=
| IndexOutOfRange (index len : nat)
| NilDereference.

Inductive outcome (A : Type) :=
| Ret (a : A)
| Panicked (p : panic).
Arguments Ret {A} a.
Arguments Panicked {A} p.

Definition M (A : Type) : Type := State -> State * outcome A.

Definition ret {A} (a : A) : M A := fun st => (st, Ret a).

Definition raise {A} (p : panic) : M A := fun st => (st, Panicked p).

Definition bind {A B} (m : M A) (k : A -> M B) : M B :=
  fun st =>
    match m st with
    | (st', Ret a) => k a st'
    | (st', Panicked p) => (st', Panicked p)
    end.

Notation "x <- c1 ;; c2" := (bind c1 (fun x => c2))
  (at level 100, c1 at next level, right associativity).
Notation "c1 ;; c2" := (bind c1 (fun _ => c2))
  (at level 100, right associativity).

(** The state after one more event. *)
Definition push (e : Event) (st : State) : State :=
  {| events := (events st ++ [e])%list; writer := writer st |}.

Definition emit (e : Event) : M unit := fun st => (push e st, Ret tt).

Definition past : M (list Event) := fun st => (st, Ret (events st)).

(** [log.Printf(format, args...)]. *)
Definition log_Printf (format : string) (args : list string) : M unit :=
  emit (EvLog format args).

(** [s[i]] on a slice: a run-time panic when [i] is out of range. *)
Definition index {A} (s : list A) (i : nat) : M A :=
  match s !! i with
  | Some x => ret x
  | None => raise (IndexOutOfRange i (length s))
  end.

(** [for i := lo; i < hi; i++ { acc = body acc i }]. *)
Fixpoint forRange' {A} (body : A -> nat -> M A) (idx : list nat) (acc : A) : M A :=
  match idx with
  | [] => ret acc
  | i :: idx' => acc' <- body acc i ;; forRange' body idx' acc'
  end.

Definition forRange {A} (lo hi : nat) (body : A -> nat -> M A) (acc : A) : M A :=
  forRange' body (seq lo (hi - lo)) acc.

(** ** The handler *)

Definition TELEGRAM_API_BASE_URL : string := "https://api.telegram.org/bot".
Definition TELEGRAM_API_SEND_MESSAGE : string := "/sendMessage".
Definition BOT_TOKEN_ENV : string := "TELEGRAM_BOT_TOKEN".
Definition IMDB_URL : string := "https://www.imdb.com/search/keyword/?keywords=".

Definition newline : string := String "010" EmptyString.

(** The text both revisions answer the start command with. *)
Definition greeting : string :=
  "Hey dude!" +:+ newline
  +:+ "Give me some keywords (comma delimited) to recommend you movies :D".

(** The selector passed to [OnHTML]: [h3[class="lister-item-header"]]. *)
Definition headerSelector : html.Node -> bool :=
  goquery.tagAttrEquals "h3" "class" "lister-item-header".

(** The [OnHTML] callback, with the captured variable [movies] made an
    argument and a result: [element.DOM] is the selection holding the
    matched element alone. *)
Definition onHeader (movies : string) (element : html.Node) : string :=
  movies +:+ strings.TrimSpace (goquery.Text (goquery.Children [element])) +:+ newline.

(** What the collector does with a delivered document: the callback runs
    once per element found by the selector, in document order. *)
Definition scrape (doc : html.Node) : string :=
  fold_left onHeader (goquery.Find headerSelector [doc]) EmptyString.

(** [url.Values{"chat_id": {strconv.Itoa(chatID)}, "text": {text}}]. *)
Definition replyValues (chatID : Z) (text : string) : Values :=
  {[ "chat_id" := [strconv.Itoa chatID]; "text" := [text] ]}.

Section Handler.
Context (W : World).

Definition telegramAPI : string :=
  TELEGRAM_API_BASE_URL +:+ Getenv W BOT_TOKEN_ENV +:+ TELEGRAM_API_SEND_MESSAGE.

Definition http_PostForm (url : string) (data : Values) : M (string + Response) :=
  tr <- past ;;
  emit (EvPostForm url data) ;;
  ret (httpPostForm W tr url data).

Definition io_ReadAll (resp : Response) : M (string + string) :=
  emit (EvReadAll resp) ;; ret (Body resp).

Definition Body_Close (resp : Response) : M unit := emit (EvClose resp).

Definition colly_Visit (url : string) : M (string + html.Node) :=
  tr <- past ;;
  emit (EvVisit url) ;;
  ret (collyVisit W tr url).

(** The first statements of [getMovies]: the URL to scrape. *)
Definition queryURL (keywords : list string) : M string :=
  k0 <- index keywords 0 ;;
  forRange 1 (length keywords)
    (fun URL i => k <- index keywords i ;; ret (URL +:+ "%2C" +:+ k))
    (IMDB_URL +:+ k0).

(** [getMovies] constructs an IMDB URL, scrapes it and returns the
    scraped movies.  The error [c.Visit] returns is dropped; [movies]
    then still holds its zero value.  Both revisions have the same
    [getMovies]. *)
Definition getMovies (keywords : list string) : M string :=
  URL <- queryURL keywords ;;
  page <- colly_Visit URL ;;
  ret (match page with
       | inl _ => EmptyString
       | inr doc => scrape doc
       end).

(** [getKeywords] parses incoming text and returns keywords. *)
Definition getKeywords (incomingText : string) : list string :=
  let incomingText := strings.ReplaceAll incomingText " " EmptyString in
  strings.Split incomingText ",".

Definition startValues (chatID : Z) : Values := replyValues chatID greeting.

End Handler.

(** *** First revision: [sendToClient] reports its errors *)

Module V1.
Section V1.
Context (W : World).

(** [parseIncomingRequest] parses an incoming update to [Update]. *)
Definition parseIncomingRequest (r : Request) : M (option Update * option error) :=
  match jsonDecode W (Request_Body r) with
  | inl msg =>
      log_Printf "could not decode incoming update %s" [msg] ;;
      ret (None, Some (DecodeError msg))
  | inr update =>
      if (UpdateID update =? 0)%Z then
        log_Printf "invalid update id, got update id = 0" [] ;;
        ret (None,
             Some (InvalidIdentifier
               "invalid update id. 0 indicates failure to parse incoming update"))
      else ret (Some update, None)
  end.

(** The statements [sendToClient] runs twice, once per branch: post the
    form, and unless the post failed read the whole body of the
    response, closing it on the way out (the deferred [Close]). *)
Definition postAndRead (data : Values) : M (string * option error) :=
  posted <- http_PostForm W (telegramAPI W) data ;;
  match posted with
  | inl msg =>
      log_Printf "error when posting text to the chat: %s" [msg] ;;
      ret (EmptyString, Some (TransmissionError msg))
  | inr response =>
      read <- io_ReadAll response ;;
      match read with
      | inl msg =>
          log_Printf "error in parsing telegram response %s" [msg] ;;
          Body_Close response ;;
          ret (EmptyString, Some (BodyReadError msg))
      | inr body =>
          log_Printf "body of the telegram response: %s" [body] ;;
          Body_Close response ;;
          ret (body, None)
      end
  end.

(** [sendToClient] sends a text message to the Telegram chat identified
    by the chat ID. *)
Definition sendToClient (chatID : Z) (incomingText : string)
  : M (string * option error) :=
  if String.eqb incomingText "/start" then
    postAndRead (startValues chatID)
  else
    let sendValues : Values := {[ "chat_id" := [strconv.Itoa chatID] ]} in
    sendValues <-
      (if String.eqb incomingText "start" then
         ret (Values_Add "text" greeting sendValues)
       else
         let keywords := getKeywords incomingText in
         movies <- getMovies W keywords ;;
         ret (Values_Add "text" movies sendValues)) ;;
    postAndRead sendValues.

(** [Handler] sends a message back to the chat. *)
Definition Handler (r : Request) : M unit :=
  parsed <- parseIncomingRequest r ;;
  match parsed with
  | (_, Some err) =>
      log_Printf "error parsing incoming update, %s" [Error err]
  | (None, None) => raise NilDereference
  | (Some update, None) =>
      let chatID := ID (Chat_ (Message_ update)) in
      sent <- sendToClient chatID
                (strings.ToLower (unicodeLower W) (Text (Message_ update))) ;;
      match sent with
      | (telegramResponseBody, Some err) =>
          log_Printf "got error %s from telegram, response body is %s"
                     [Error err; telegramResponseBody]
      | (_, None) =>
          log_Printf "successfully distributed to chat id %d" [strconv.Itoa chatID]
      end
  end.

End V1.
End V1.

(** *** Second revision: [sendToClient] returns nothing *)

Module V2.
Section V2.
Context (W : World).

Definition parseIncomingRequest (r : Request) : M (option Update * option error) :=
  match jsonDecode W (Request_Body r) with
  | inl msg =>
      log_Printf "could not decode incoming update %s" [msg] ;;
      ret (None, Some (DecodeError msg))
  | inr update =>
      if (UpdateID update =? 0)%Z then
        log_Printf "invalid update id, got update id = 0" [] ;;
        ret (None,
             Some (InvalidIdentifier
               "invalid update id of 0 indicates failure to parse incoming update"))
      else ret (Some update, None)
  end.

(** [response.Body] on the first result of [http.PostForm] whose error
    was dropped: a nil-pointer dereference when the post had failed. *)
Definition deref (posted : string + Response) : M Response :=
  match posted with
  | inl _ => raise NilDereference
  | inr response => ret response
  end.

(** Runs the deferred calls when [m] panics, as the run time does while
    it unwinds, and lets the panic go on. *)
Definition unwinding {A} (deferred : M unit) (m : M A) : M A :=
  fun st =>
    match m st with
    | (st', Ret a) => (st', Ret a)
    | (st', Panicked p) =>
        match deferred st' with
        | (st'', Ret _) => (st'', Panicked p)
        | (st'', Panicked p') => (st'', Panicked p')
        end
    end.

(** [sendToClient] sends a text message to the Telegram chat identified
    by the chat ID.  The start case posts the greeting itself, defers
    closing that response and falls out of the switch with [movies]
    still empty; the post after the switch is made in both cases. *)
Definition sendToClient (chatID : Z) (incomingText : string) : M unit :=
  branch <-
    (if String.eqb incomingText "/start" then
       posted <- http_PostForm W (telegramAPI W) (startValues chatID) ;;
       response <- deref posted ;;
       ret (Body_Close response, EmptyString)
     else
       let incomingText := strings.ReplaceAll incomingText " " EmptyString in
       let keywords := strings.Split incomingText "," in
       movies <- getMovies W keywords ;;
       ret (ret tt, movies)) ;;
  let deferred : M unit := fst branch in
  let movies : string := snd branch in
  unwinding deferred
    (posted <- http_PostForm W (telegramAPI W) (replyValues chatID movies) ;;
     response <- deref posted ;;
     Body_Close response) ;;
  deferred.

(** [Handler] sends a message back to the chat. *)
Definition Handler (r : Request) : M unit :=
  parsed <- parseIncomingRequest r ;;
  match parsed with
  | (_, Some err) =>
      log_Printf "error parsing incoming update, %s" [Error err]
  | (None, None) => raise NilDereference
  | (Some update, None) =>
      sendToClient (ID (Chat_ (Message_ update)))
                   (strings.ToLower (unicodeLower W) (Text (Message_ update)))
  end.

End V2.
End V2.

(** ** Observations on a run *)

(** The forms posted in a trace, oldest first. *)
Definition postedForms (evs : list Event) : list Values :=
  omap (fun e => match e with EvPostForm _ data => Some data | _ => None end) evs.

(** The URLs the collector was sent to. *)
Definition visited (evs : list Event) : list string :=
  omap (fun e => match e with EvVisit url => Some url | _ => None end) evs.

(** The log lines written. *)
Definition logged (evs : list Event) : list string :=
  omap (fun e => match e with EvLog format _ => Some format | _ => None end) evs.

(** The answers of the Telegram endpoint of [W] to the posts among [evs],
    in order, given the events [before] them: the error of
    [http.PostForm], or the response. *)
Fixpoint answers (W : World) (before evs : list Event) : list (string + Response) :=
  match evs with
  | [] => []
  | e :: evs' =>
      (match e with
       | EvPostForm url data => [httpPostForm W before url data]
       | _ => []
       end ++ answers W (before ++ [e]) evs')%list
  end.

(** What the first revision's [sendToClient] returns for an answer. *)
Definition dispatched (answer : string + Response) : string * option error :=
  match answer with
  | inl msg => (EmptyString, Some (TransmissionError msg))
  | inr response =>
      match Body response with
      | inl msg => (EmptyString, Some (BodyReadError msg))
      | inr body => (body, None)
      end
  end.

(** ** The specification's wording, for comparison with the code *)

Module Spec.

(** Keeps the bytes [keep] accepts. *)
Fixpoint filterBytes (keep : ascii -> bool) (s : string) : string :=
  match s with
  | EmptyString => EmptyString
  | String c s' =>
      if keep c then String c (filterBytes keep s') else filterBytes keep s'
  end.

(** "strip all whitespace from the text": tab, line feed, vertical tab,
    form feed, carriage return and space are all removed. *)
Definition stripWhitespace (s : string) : string :=
  filterBytes (fun c => negb (strings.asciiSpace (N_of_ascii c))) s.

(** Removing the space character alone. *)
Definition stripSpaces (s : string) : string :=
  filterBytes (fun c => negb (Ascii.eqb c " ")) s.

(** "split on comma": the pieces between the occurrences of [sep]. *)
Fixpoint splitOn (sep : ascii) (s : string) : list string :=
  match s with
  | EmptyString => [EmptyString]
  | String c s' =>
      if Ascii.eqb c sep then EmptyString :: splitOn sep s'
      else match splitOn sep s' with
           | piece :: pieces => String c piece :: pieces
           | [] => [String c EmptyString]
           end
  end.

(** "strip all whitespace from the text, then split on comma". *)
Definition getKeywords (text : string) : list string :=
  splitOn "," (stripWhitespace text).

(** "its first nested text-bearing child": the first child element
    whose text is not empty. *)
Definition firstTextBearingChild (element : html.Node) : option html.Node :=
  List.find (fun c => negb (String.eqb (goquery.nodeText c) EmptyString))
            (goquery.childElements element).

(** "take the trimmed text of its first nested text-bearing child,
    append a newline, and accumulate into the result string". *)
Definition onHeader (movies : string) (element : html.Node) : string :=
  movies
  +:+ strings.TrimSpace
        (match firstTextBearingChild element with
         | Some c => goquery.nodeText c
         | None => EmptyString
         end)
  +:+ newline.

Definition scrape (doc : html.Node) : string :=
  fold_left onHeader (goquery.Find headerSelector [doc]) EmptyString.

(** What the code does per heading: the trimmed text of all its child
    elements together. *)
Definition title (element : html.Node) : string :=
  strings.TrimSpace (goquery.Text (goquery.Children [element])).

(** One line per heading, in the order of the list. *)
Definition titleLines (headings : list html.Node) : string :=
  foldr (fun h rest => title h +:+ newline +:+ rest) EmptyString headings.

(** "the first keyword followed by, for each subsequent keyword in
    order, the literal %2C and that keyword". *)
Definition commaJoined (first : string) (others : list string) : string :=
  first +:+ foldr (fun k rest => "%2C" +:+ k +:+ rest) EmptyString others.

End Spec.

(** ** Sample inputs *)

Module Sample.
Import html.

Definition tab : string := String "009" EmptyString.

(** ["a,<tab>b"]: a keyword preceded by a tab. *)
Definition tabbed : string := "a," +:+ tab +:+ "b".

Definition text (s : string) : Node := mkNode TextNode s [] [].
Definition element (tag : string) (attrs : list (string * string))
           (children : list Node) : Node :=
  mkNode ElementNode tag attrs children.
Definition header (children : list Node) : Node :=
  element "h3" [("class", "lister-item-header")] children.
Definition page (body : list Node) : Node :=
  mkNode DocumentNode EmptyString []
    [mkNode DoctypeNode "html" [] [];
     element "html" [] [element "head" [] []; element "body" [] body]].

(** A result page in the shape of the scraped site: each heading holds
    an index, the linked title and the year. *)
Definition listerPage : Node :=
  page [element "div" [("class", "lister-item-content")]
          [header [text " ";
                   element "span" [("class", "lister-item-index")] [text "1."];
                   text " ";
                   element "a" [("href", "/title/tt0000001/")] [text "Movie One"];
                   text " ";
                   element "span" [("class", "lister-item-year")] [text "(2019)"]]]].

(** Two headings, each with the title in its single child element, and
    one heading of another class. *)
Definition twoMovies : Node :=
  page [header [text " "; element "a" [] [text "Movie One"]; text " "];
        element "h3" [("class", "findSectionHeader")] [element "a" [] [text "Names"]];
        element "div" [] [header [element "a" [] [text (" Movie Two" +:+ newline)]]]].

Definition noMedia : Audio := {| Audio_FileID := EmptyString; Duration := 0 |}.

Definition update (id chat : Z) (text : string) : Update :=
  {| UpdateID := id;
     Message_ := {| Text := text; Chat_ := {| ID := chat |};
                    Audio_ := noMedia; Voice_ := noMedia;
                    Document_ := {| Document_FileID := EmptyString;
                                    FileName := EmptyString |} |} |}.

(** A world for running the handler: the decoder answers update 7 of
    chat 42 carrying the request body as its text (the body ["{"] does
    not decode, the body ["{}"] decodes to the zero update); the scraped
    site and the Telegram endpoint answer as told. *)
Definition worldWith (site : string + Node) (telegram : string + Response) : World :=
  {| Getenv := fun _ => "TOKEN";
     unicodeLower := fun s => s;
     jsonDecode := fun body =>
       if String.eqb body "{" then inl "unexpected EOF"
       else if String.eqb body "{}" then inr (update 0 0 EmptyString)
       else inr (update 7 42 body);
     collyVisit := fun _ _ => site;
     httpPostForm := fun _ _ _ => telegram |}.

Definition refused : string := "dial tcp: connection refused".

(** The scraped site and the Telegram endpoint up or down. *)
Definition world (siteUp telegramUp : bool) : World :=
  worldWith (if siteUp then inr twoMovies else inl refused)
            (if telegramUp then inr {| StatusCode := 200; Body := inr "{}" |}
             else inl refused).

(** Telegram answering with an error status and a readable body. *)
Definition badGateway : Response :=
  {| StatusCode := 502; Body := inr "Bad Gateway" |}.

Definition request (body : string) : Request := {| Request_Body := body |}.

Definition fresh : State :=
  {| events := []; writer := {| wroteHeader := None; written := EmptyString |} |}.

End Sample.

(** ** Textual representations *)

(** The [String] methods.  [fmt.Sprintf] is used with two verbs only:
    [%d] prints an int in decimal; [%s] prints a string as it is and a
    value that has a [String] method by that method.  [Voice] has no
    method of its own, and no method prints a voice or a document of a
    message. *)

(** String gives the representation of a Chat as a string. *)
Definition Chat_String (c : Chat) : string :=
  "(id: " +:+ strconv.Itoa (ID c) +:+ ")".

(** String gives the representation of an Audio as a string. *)
Definition Audio_String (a : Audio) : string :=
  "(file id: " +:+ Audio_FileID a
  +:+ ", duration: " +:+ strconv.Itoa (Duration a) +:+ ")".

(** String gives the representation of a Document as a string. *)
Definition Document_String (d : Document) : string :=
  "(file id: " +:+ Document_FileID d +:+ ", file name: " +:+ FileName d +:+ ")".

(** String gives the representation of a Message as a string. *)
Definition Message_String (m : Message) : string :=
  "(text: " +:+ Text m +:+ ", chat: " +:+ Chat_String (Chat_ m)
  +:+ ", audio " +:+ Audio_String (Audio_ m) +:+ ")".

(** String gives the representation of an Update as a string. *)
Definition Update_String (u : Update) : string :=
  "(update id: " +:+ strconv.Itoa (UpdateID u)
  +:+ ", message: " +:+ Message_String (Message_ u) +:+ ")".

(** ** Further observations on a run *)

(** The posts of a trace with the address they went to. *)
Definition posts (evs : list Event) : list (string * Values) :=
  omap (fun e => match e with EvPostForm url data => Some (url, data) | _ => None end)
       evs.

(** The responses whose body was read to the end, and those closed. *)
Definition readBodies (evs : list Event) : list Response :=
  omap (fun e => match e with EvReadAll resp => Some resp | _ => None end) evs.

Definition closed (evs : list Event) : list Response :=
  omap (fun e => match e with EvClose resp => Some resp | _ => None end) evs.

(** The responses among the answers of the endpoint. *)
Definition received (answered : list (string + Response)) : list Response :=
  omap (fun a => match a with inr resp => Some resp | inl _ => None end) answered.

(** The bytes of a string, and the number of them equal to [b]. *)
Definition bytes (s : string) : list ascii := list_ascii_of_string s.

Definition countByte (b : ascii) (s : string) : nat :=
  List.length (List.filter (fun c => Ascii.eqb c b) (bytes s)).

Definition isUpper (c : ascii) : bool :=
  ((65 <=? N_of_ascii c) && (N_of_ascii c <=? 90))%N.

(** The address looked up for a text, and what the lookup gives: the
    scraped titles, or nothing when the visit fails. *)
Definition lookupURL (text : string) : string :=
  IMDB_URL
  +:+ strings.ReplaceAll (strings.ReplaceAll text " " EmptyString) "," "%2C".

Definition lookupReply (W : World) (text : string) (st : State) : string :=
  match collyVisit W (events st) (lookupURL text) with
  | inl _ => EmptyString
  | inr doc => scrape doc
  end.

(** The line the first revision's [sendToClient] logs, by the answer to
    its post, and the line its handler logs last. *)
Definition dispatchLog (answer : string + Response) : string :=
  match answer with
  | inl _ => "error when posting text to the chat: %s"
  | inr response =>
      match Body response with
      | inl _ => "error in parsing telegram response %s"
      | inr _ => "body of the telegram response: %s"
      end
  end.

Definition finalLog (answer : string + Response) : string :=
  match snd (dispatched answer) with
  | Some _ => "got error %s from telegram, response body is %s"
  | None => "successfully distributed to chat id %d"
  end.

(* ===================================================================== *)
(** * Part II: properties                                                 *)
(* ===================================================================== *)

(** ** Strings *)

Section StringFacts.

Lemma append_cons (c : ascii) (s t : string) :
  String c s +:+ t = String c (s +:+ t).
Proof. reflexivity. Qed.

Lemma append_nil_l (s : string) : EmptyString +:+ s = s.
Proof. reflexivity. Qed.

Lemma append_nil_r (s : string) : s +:+ EmptyString = s.
Proof.
  induction s as [|c s IH]; [reflexivity|]. now rewrite append_cons, IH.
Qed.

Lemma append_assoc (s1 s2 s3 : string) : (s1 +:+ s2) +:+ s3 = s1 +:+ (s2 +:+ s3).
Proof.
  induction s1 as [|c s1 IH]; [reflexivity|]. now rewrite !append_cons, IH.
Qed.

Lemma prefix_nil (s : string) : String.prefix EmptyString s = true.
Proof. now destruct s. Qed.

(** Looking for a one-byte pattern is comparing the first byte. *)
Lemma prefix_byte (b c : ascii) (s : string) :
  String.prefix (String b EmptyString) (String c s) = Ascii.eqb c b.
Proof.
  simpl. destruct (ascii_dec b c) as [->|Hne].
  - now rewrite prefix_nil, Ascii.eqb_refl.
  - symmetry. apply Ascii.eqb_neq. congruence.
Qed.

(** Replacing a byte by nothing keeps the other bytes. *)
Lemma replace_scan_byte (b : ascii) (s : string) :
  strings.replace_scan (String b EmptyString) EmptyString 0 s
  = Spec.filterBytes (fun c => negb (Ascii.eqb c b)) s.
Proof.
  induction s as [|c s IH]; [reflexivity|].
  cbn [strings.replace_scan Spec.filterBytes].
  rewrite prefix_byte. destruct (Ascii.eqb c b); cbn; now rewrite IH.
Qed.

Lemma ReplaceAll_space (s : string) :
  strings.ReplaceAll s " " EmptyString = Spec.stripSpaces s.
Proof. unfold strings.ReplaceAll. cbn [String.eqb]. apply replace_scan_byte. Qed.

Lemma splitOn_nonempty (sep : ascii) (s : string) : Spec.splitOn sep s <> [].
Proof.
  induction s as [|c s IH]; cbn; [discriminate|].
  destruct (Ascii.eqb c sep); [discriminate|].
  destruct (Spec.splitOn sep s); discriminate.
Qed.

(** Splitting at a one-byte separator, with the piece read so far. *)
Lemma split_scan_byte (sep : ascii) (s cur : string) :
  strings.split_scan (String sep EmptyString) 0 cur s
  = match Spec.splitOn sep s with
    | piece :: pieces => (cur +:+ piece) :: pieces
    | [] => [cur]
    end.
Proof.
  revert cur. induction s as [|c s IH]; intros cur.
  - cbn. now rewrite append_nil_r.
  - cbn [strings.split_scan Spec.splitOn]. rewrite prefix_byte.
    destruct (Ascii.eqb c sep).
    + rewrite append_nil_r. f_equal.
      cbn [String.length Nat.sub]. rewrite IH.
      destruct (Spec.splitOn sep s) eqn:E; [now apply splitOn_nonempty in E|].
      reflexivity.
    + rewrite IH.
      destruct (Spec.splitOn sep s) eqn:E; [now apply splitOn_nonempty in E|].
      now rewrite append_assoc.
Qed.

Lemma Split_byte (sep : ascii) (s : string) :
  strings.Split s (String sep EmptyString) = Spec.splitOn sep s.
Proof.
  unfold strings.Split. rewrite split_scan_byte.
  destruct (Spec.splitOn sep s) eqn:E; [now apply splitOn_nonempty in E|].
  reflexivity.
Qed.

(** [strings.Split] never returns an empty slice. *)
Lemma split_scan_nonempty (sep : string) (s : string) (skip : nat) (cur : string) :
  strings.split_scan sep skip cur s <> [].
Proof.
  revert skip cur.
  induction s as [|c s IH]; intros skip cur; cbn [strings.split_scan];
    [discriminate|].
  destruct skip; [|apply IH].
  destruct (String.prefix sep (String c s)); [discriminate | apply IH].
Qed.

Lemma Split_nonempty (s sep : string) : strings.Split s sep <> [].
Proof. apply split_scan_nonempty. Qed.

Lemma getKeywords_nonempty (text : string) : getKeywords text <> [].
Proof. apply Split_nonempty. Qed.

Lemma filterBytes_app (keep : ascii -> bool) (s1 s2 : string) :
  Spec.filterBytes keep (s1 +:+ s2)
  = Spec.filterBytes keep s1 +:+ Spec.filterBytes keep s2.
Proof.
  induction s1 as [|c s1 IH]; [reflexivity|].
  rewrite append_cons. cbn [Spec.filterBytes].
  destruct (keep c); now rewrite ?append_cons, IH.
Qed.

End StringFacts.

(** ** C1: keyword extraction *)

(** C1, the claim as stated fails: with a tab after the comma the code
    keeps the tab in the second keyword, where stripping all white space
    would give ["a"; "b"] as for ["a,b"]. *)
Lemma C1_tab_is_kept :
  getKeywords Sample.tabbed = ["a"; Sample.tab +:+ "b"]
  /\ Spec.getKeywords Sample.tabbed = ["a"; "b"]
  /\ getKeywords Sample.tabbed <> Spec.getKeywords Sample.tabbed
  /\ getKeywords Sample.tabbed <> getKeywords "a,b".
Proof. repeat split; vm_compute; discriminate. Qed.

(** C1, amended: for every input string, keyword extraction removes every
    space character (and no other white space) and then splits on comma;
    inserting spaces anywhere does not change the keywords, and the inputs
    ["a, b,c"] and ["a,b,c"] both yield ["a"; "b"; "c"]. *)
Theorem C1_getKeywords_strips_spaces :
  (forall text : string,
      getKeywords text = Spec.splitOn "," (Spec.stripSpaces text))
  /\ (forall before after : string,
         getKeywords (before +:+ " " +:+ after) = getKeywords (before +:+ after))
  /\ getKeywords "a, b,c" = ["a"; "b"; "c"]
  /\ getKeywords "a,b,c" = ["a"; "b"; "c"].
Proof.
  assert (Hspec : forall text,
             getKeywords text = Spec.splitOn "," (Spec.stripSpaces text)).
  { intros text. unfold getKeywords. now rewrite ReplaceAll_space, Split_byte. }
  split; [exact Hspec|]. split; [|split; reflexivity].
  intros before after. rewrite !Hspec. unfold Spec.stripSpaces.
  now rewrite !filterBytes_app.
Qed.

(** ** Running the effects *)

Section MonadFacts.

Lemma bind_Ret {A B} (m : M A) (k : A -> M B) (st st' : State) (a : A) :
  m st = (st', Ret a) -> bind m k st = k a st'.
Proof. intros H. unfold bind. now rewrite H. Qed.

Lemma index_middle {A} (l1 l2 : list A) (x : A) (st : State) :
  index (l1 ++ x :: l2)%list (length l1) st = (st, Ret x).
Proof. unfold index. now rewrite list_lookup_middle. Qed.

Lemma postedForms_app (e1 e2 : list Event) :
  postedForms (e1 ++ e2)%list = (postedForms e1 ++ postedForms e2)%list.
Proof. apply omap_app. Qed.

Lemma visited_app (e1 e2 : list Event) :
  visited (e1 ++ e2)%list = (visited e1 ++ visited e2)%list.
Proof. apply omap_app. Qed.

End MonadFacts.

(** ** The query URL (C4, C5) *)

Section QueryURL.
Context (W : World).

(** The loop of [getMovies] from index [length done] on: every access
    is in range and each remaining keyword is appended after a ["%2C"]. *)
Lemma appendKeywords (keywords done rest : list string) (URL : string) (st : State) :
  keywords = (done ++ rest)%list ->
  forRange' (fun URL i => k <- index keywords i ;; ret (URL +:+ "%2C" +:+ k))
            (seq (length done) (length rest)) URL st
  = (st, Ret (URL +:+ foldr (fun k r => "%2C" +:+ k +:+ r) EmptyString rest)).
Proof.
  revert done URL. induction rest as [|k rest IH]; intros done URL ->.
  - cbn. now rewrite append_nil_r.
  - cbn [length seq forRange' foldr].
    erewrite bind_Ret; [|erewrite bind_Ret; [reflexivity | apply index_middle]].
    specialize (IH (done ++ [k])%list (URL +:+ "%2C" +:+ k)).
    rewrite length_app, Nat.add_1_r in IH.
    rewrite IH by now rewrite <- app_assoc.
    now rewrite !append_assoc.
Qed.

Lemma queryURL_cons (k : string) (ks : list string) (st : State) :
  queryURL (k :: ks) st = (st, Ret (IMDB_URL +:+ Spec.commaJoined k ks)).
Proof.
  unfold queryURL, forRange. cbn [length index lookup].
  erewrite bind_Ret; [|reflexivity].
  rewrite Nat.sub_succ, Nat.sub_0_r.
  rewrite (appendKeywords (k :: ks) [k] ks) by reflexivity.
  unfold Spec.commaJoined. now rewrite append_assoc.
Qed.

Lemma queryURL_nil (st : State) :
  queryURL [] st = (st, Panicked (IndexOutOfRange 0 0)).
Proof. reflexivity. Qed.

(** [getMovies] on a non-empty list: one visit, of the query URL; the
    result is empty when the visit fails and the scraped text when a
    document is delivered. *)
Lemma getMovies_cons (k : string) (ks : list string) (st : State) :
  let URL := IMDB_URL +:+ Spec.commaJoined k ks in
  getMovies W (k :: ks) st
  = (push (EvVisit URL) st,
     Ret (match collyVisit W (events st) URL with
          | inl _ => EmptyString
          | inr doc => scrape doc
          end)).
Proof.
  intros URL. unfold getMovies.
  erewrite bind_Ret; [|apply queryURL_cons]. reflexivity.
Qed.

Lemma getMovies_nil (st : State) :
  getMovies W [] st = (st, Panicked (IndexOutOfRange 0 0)).
Proof. reflexivity. Qed.

End QueryURL.

(** C4: for every non-empty keyword list, the query URL is the base
    search endpoint followed by the first keyword and then, for each
    further keyword in order, ["%2C"] and that keyword; it is the URL the
    collector visits, unchanged; for ["x"; "y"] it is the base followed by
    ["x%2Cy"]. *)
Theorem C4_query_url :
  (forall (W : World) (first : string) (others : list string) (st : State),
      let URL := IMDB_URL +:+ first
                 +:+ foldr (fun k rest => "%2C" +:+ k +:+ rest) EmptyString others in
      queryURL (first :: others) st = (st, Ret URL)
      /\ visited (events (fst (getMovies W (first :: others) st)))
         = (visited (events st) ++ [URL])%list)
  /\ (forall st : State, queryURL ["x"; "y"] st = (st, Ret (IMDB_URL +:+ "x%2Cy"))).
Proof.
  split.
  - intros W first others st URL. split.
    + apply queryURL_cons.
    + rewrite getMovies_cons. cbn [fst events push]. now rewrite visited_app.
  - intros st. now rewrite queryURL_cons.
Qed.

(** C5: [getMovies] indexes the first keyword unconditionally, so on an
    empty list it panics with an index out of range before doing anything
    else; on a non-empty list no access is out of range and it returns. *)
Theorem C5_getMovies_precondition :
  forall (W : World) (st : State),
    getMovies W [] st = (st, Panicked (IndexOutOfRange 0 0))
    /\ forall keywords : list string,
         keywords <> [] ->
         exists movies : string, snd (getMovies W keywords st) = Ret movies.
Proof.
  intros W st. split; [reflexivity|].
  intros [|k ks] Hne; [congruence|].
  rewrite getMovies_cons. eexists. reflexivity.
Qed.

Lemma C5_getMovies_precondition_witness :
  ["drama"; "heist"] <> []
  /\ exists movies : string,
       snd (getMovies (Sample.world true true) ["drama"; "heist"] Sample.fresh)
       = Ret movies.
Proof.
  split; [discriminate|].
  apply (proj2 (C5_getMovies_precondition (Sample.world true true) Sample.fresh)).
  discriminate.
Defined.

(** ** C2: the scraped titles *)

Lemma fold_onHeader (headings : list html.Node) (movies : string) :
  fold_left onHeader headings movies = movies +:+ Spec.titleLines headings.
Proof.
  revert movies. induction headings as [|h headings IH]; intros movies.
  - cbn. now rewrite append_nil_r.
  - cbn [fold_left Spec.titleLines foldr]. rewrite IH. unfold onHeader.
    fold (Spec.title h). now rewrite !append_assoc.
Qed.

Lemma scrape_titleLines (doc : html.Node) :
  scrape doc = Spec.titleLines (goquery.Find headerSelector [doc]).
Proof. unfold scrape. now rewrite fold_onHeader. Qed.

(** C2, the claim as stated fails: on a heading holding an index, the
    linked title and the year in three child elements (the markup of the
    scraped site), the code joins the text of all three, where the first
    text-bearing child alone would give ["1."]. *)
Lemma C2_all_children_are_joined :
  scrape Sample.listerPage = "1.Movie One(2019)" +:+ newline
  /\ Spec.scrape Sample.listerPage = "1." +:+ newline
  /\ scrape Sample.listerPage <> Spec.scrape Sample.listerPage.
Proof. repeat split. vm_compute. discriminate. Qed.

(** C2, amended: for every scraped document the result is, for each
    element matching the heading selector in document order, the trimmed
    concatenation of the text of all its child elements followed by a
    newline; in particular a document with exactly two matching headings
    whose child elements' text trims to ["Movie One"] and ["Movie Two"]
    gives ["Movie One\nMovie Two\n"]. *)
Theorem C2_titles_in_document_order :
  forall doc : html.Node,
    scrape doc
    = foldr (fun h rest =>
               strings.TrimSpace (goquery.Text (goquery.Children [h]))
               +:+ newline +:+ rest)
            EmptyString (goquery.Find headerSelector [doc])
    /\ forall h1 h2 : html.Node,
         goquery.Find headerSelector [doc] = [h1; h2] ->
         strings.TrimSpace (goquery.Text (goquery.Children [h1])) = "Movie One" ->
         strings.TrimSpace (goquery.Text (goquery.Children [h2])) = "Movie Two" ->
         scrape doc = "Movie One" +:+ newline +:+ "Movie Two" +:+ newline.
Proof.
  intros doc. split; [apply scrape_titleLines|].
  intros h1 h2 Hfind H1 H2. rewrite scrape_titleLines, Hfind.
  unfold Spec.titleLines, Spec.title. cbn [foldr]. now rewrite H1, H2.
Qed.

Lemma C2_titles_in_document_order_witness :
  scrape Sample.twoMovies = "Movie One" +:+ newline +:+ "Movie Two" +:+ newline.
Proof.
  apply (proj2 (C2_titles_in_document_order Sample.twoMovies)
               (Sample.header [Sample.text " ";
                               Sample.element "a" [] [Sample.text "Movie One"];
                               Sample.text " "])
               (Sample.header [Sample.element "a" []
                                 [Sample.text (" Movie Two" +:+ newline)]]));
    reflexivity.
Defined.

(** ** C3: decoding the inbound payload *)

Section Decoding.
Context (W : World).

Lemma V1_parse_ok (r : Request) (u : Update) (st : State) :
  jsonDecode W (Request_Body r) = inr u -> UpdateID u <> 0%Z ->
  V1.parseIncomingRequest W r st = (st, Ret (Some u, None)).
Proof.
  intros Hdec Hid. unfold V1.parseIncomingRequest. rewrite Hdec.
  now destruct (Z.eqb_spec (UpdateID u) 0).
Qed.

Lemma V2_parse_ok (r : Request) (u : Update) (st : State) :
  jsonDecode W (Request_Body r) = inr u -> UpdateID u <> 0%Z ->
  V2.parseIncomingRequest W r st = (st, Ret (Some u, None)).
Proof.
  intros Hdec Hid. unfold V2.parseIncomingRequest. rewrite Hdec.
  now destruct (Z.eqb_spec (UpdateID u) 0).
Qed.

(** Whatever the payload, parsing returns (it does not panic), touches
    nothing but the log, and hands back either an update or an error. *)
Lemma V1_parse_returns (r : Request) (st : State) :
  exists st' result,
    V1.parseIncomingRequest W r st = (st', Ret result)
    /\ writer st' = writer st
    /\ postedForms (events st') = postedForms (events st)
    /\ (snd result = None -> exists u, fst result = Some u).
Proof.
  unfold V1.parseIncomingRequest.
  destruct (jsonDecode W (Request_Body r)) as [msg|u].
  - eexists _, _. split; [reflexivity|]. cbn.
    rewrite postedForms_app, app_nil_r. repeat split. discriminate.
  - destruct (UpdateID u =? 0)%Z.
    + eexists _, _. split; [reflexivity|]. cbn.
      rewrite postedForms_app, app_nil_r. repeat split. discriminate.
    + eexists _, _. split; [reflexivity|]. cbn. repeat split. eauto.
Qed.

Lemma V2_parse_returns (r : Request) (st : State) :
  exists st' result,
    V2.parseIncomingRequest W r st = (st', Ret result)
    /\ writer st' = writer st
    /\ postedForms (events st') = postedForms (events st)
    /\ (snd result = None -> exists u, fst result = Some u).
Proof.
  unfold V2.parseIncomingRequest.
  destruct (jsonDecode W (Request_Body r)) as [msg|u].
  - eexists _, _. split; [reflexivity|]. cbn.
    rewrite postedForms_app, app_nil_r. repeat split. discriminate.
  - destruct (UpdateID u =? 0)%Z.
    + eexists _, _. split; [reflexivity|]. cbn.
      rewrite postedForms_app, app_nil_r. repeat split. discriminate.
    + eexists _, _. split; [reflexivity|]. cbn. repeat split. eauto.
Qed.

End Decoding.

(** C3: in both revisions decoding returns an error exactly when the JSON
    decoder rejects the payload or the decoded update identifier is zero;
    for every payload the decoder accepts with a non-zero identifier it
    returns the decoded update itself, so chat id and message text are the
    payload's. *)
Theorem C3_decoding :
  forall (W : World) (r : Request) (st : State),
    let payload := jsonDecode W (Request_Body r) in
    let rejected :=
      (exists msg, payload = inl msg)
      \/ (exists u, payload = inr u /\ UpdateID u = 0%Z) in
    (exists st' result,
        V1.parseIncomingRequest W r st = (st', Ret result)
        /\ (snd result <> None <-> rejected)
        /\ (forall u, payload = inr u -> UpdateID u <> 0%Z ->
                      result = (Some u, None)))
    /\ (exists st' result,
           V2.parseIncomingRequest W r st = (st', Ret result)
           /\ (snd result <> None <-> rejected)
           /\ (forall u, payload = inr u -> UpdateID u <> 0%Z ->
                         result = (Some u, None))).
Proof.
  intros W r st payload rejected. subst rejected payload.
  unfold V1.parseIncomingRequest, V2.parseIncomingRequest.
  destruct (jsonDecode W (Request_Body r)) as [msg|u].
  - split; eexists _, _; (split; [reflexivity|]); cbn;
      (split; [split; [eauto | discriminate] | discriminate]).
  - destruct (Z.eqb_spec (UpdateID u) 0) as [Hz|Hnz].
    + split; eexists _, _; (split; [reflexivity|]); cbn;
        (split; [split; [eauto | discriminate]
                |intros u' [= <-] Hu'; contradiction]).
    + split; eexists _, _; (split; [reflexivity|]); cbn;
        (split; [split; [congruence
                        |intros [[msg [=]]|[u' [[= <-] Hz]]]; contradiction]
                |now intros u' [= <-] _]).
Qed.

Lemma C3_decoding_witness :
  exists st',
    V1.parseIncomingRequest (Sample.world true true)
                            (Sample.request "Drama, Heist") Sample.fresh
    = (st', Ret (Some (Sample.update 7 42 "Drama, Heist"), None)).
Proof.
  destruct (C3_decoding (Sample.world true true)
                        (Sample.request "Drama, Heist") Sample.fresh)
    as [(st' & result & Hrun & _ & Hkept) _].
  exists st'. rewrite Hrun. f_equal. f_equal.
  apply Hkept; [reflexivity | discriminate].
Defined.

(** ** Dispatching the reply *)

Ltac run_effects :=
  cbv beta iota delta
    [bind ret raise emit past log_Printf http_PostForm io_ReadAll Body_Close
     colly_Visit V2.deref V2.unwinding fst snd].

Section Dispatch.
Context (W : World).

Lemma Values_Add_text (chatID : Z) (text : string) :
  Values_Add "text" text {[ "chat_id" := [strconv.Itoa chatID] ]}
  = replyValues chatID text.
Proof.
  unfold Values_Add, replyValues.
  rewrite lookup_singleton_ne by discriminate. cbn [default app].
  rewrite <- !insert_empty. apply insert_insert_ne. discriminate.
Qed.

Lemma replyValues_text (chatID : Z) (text : string) :
  replyValues chatID text !! "text" = Some [text].
Proof.
  unfold replyValues. rewrite lookup_insert_ne by discriminate.
  apply lookup_singleton_eq.
Qed.

(** What [postAndRead] does, by the answer of the endpoint. *)
Lemma postAndRead_run (data : Values) (st : State) :
  let api := telegramAPI W in
  let st1 := push (EvPostForm api data) st in
  V1.postAndRead W data st
  = match httpPostForm W (events st) api data with
    | inl msg =>
        (push (EvLog "error when posting text to the chat: %s" [msg]) st1,
         Ret (EmptyString, Some (TransmissionError msg)))
    | inr response =>
        let st2 := push (EvReadAll response) st1 in
        match Body response with
        | inl msg =>
            (push (EvClose response)
               (push (EvLog "error in parsing telegram response %s" [msg]) st2),
             Ret (EmptyString, Some (BodyReadError msg)))
        | inr body =>
            (push (EvClose response)
               (push (EvLog "body of the telegram response: %s" [body]) st2),
             Ret (body, None))
        end
    end.
Proof.
  intros api st1. subst api st1. unfold V1.postAndRead. run_effects.
  destruct (httpPostForm W (events st) (telegramAPI W) data) as [msg|response];
    [reflexivity|].
  run_effects. destruct (Body response); reflexivity.
Qed.

(** [postAndRead] always returns, posts exactly once and leaves the
    response writer alone. *)
Lemma postAndRead_returns (data : Values) (st : State) :
  exists st' result,
    V1.postAndRead W data st = (st', Ret result)
    /\ writer st' = writer st
    /\ postedForms (events st') = (postedForms (events st) ++ [data])%list.
Proof.
  rewrite postAndRead_run. cbv zeta.
  destruct (httpPostForm W (events st) (telegramAPI W) data) as [msg|response];
    [|destruct (Body response)];
    eexists _, _; (split; [reflexivity|]); cbn [push events writer];
    (split; [reflexivity|]); rewrite !postedForms_app; cbn;
    now rewrite ?app_nil_r.
Qed.

Lemma V1_sendToClient_slash_start (chatID : Z) (st : State) :
  V1.sendToClient W chatID "/start" st = V1.postAndRead W (startValues chatID) st.
Proof. reflexivity. Qed.

Lemma V1_sendToClient_start (chatID : Z) (st : State) :
  V1.sendToClient W chatID "start" st = V1.postAndRead W (startValues chatID) st.
Proof.
  unfold V1.sendToClient.
  change (String.eqb "start" "/start") with false.
  change (String.eqb "start" "start") with true. cbv iota.
  erewrite bind_Ret; [|reflexivity]. now rewrite Values_Add_text.
Qed.

(** Any other text is looked up: one visit of the query URL of its
    keywords, then the reply with what was scraped (nothing, when the
    visit failed). *)
Lemma V1_sendToClient_lookup (chatID : Z) (text : string) (st : State) :
  text <> "/start" -> text <> "start" ->
  exists k ks,
    getKeywords text = k :: ks
    /\ let URL := IMDB_URL +:+ Spec.commaJoined k ks in
       V1.sendToClient W chatID text st
       = V1.postAndRead W
           (replyValues chatID
              (match collyVisit W (events st) URL with
               | inl _ => EmptyString
               | inr doc => scrape doc
               end))
           (push (EvVisit URL) st).
Proof.
  intros H1 H2. destruct (getKeywords text) as [|k ks] eqn:Hk;
    [now apply getKeywords_nonempty in Hk|].
  exists k, ks. split; [reflexivity|]. intros URL.
  unfold V1.sendToClient.
  apply String.eqb_neq in H1, H2. rewrite H1, H2, Hk.
  erewrite bind_Ret;
    [|erewrite bind_Ret; [reflexivity | apply getMovies_cons]].
  now rewrite Values_Add_text.
Qed.

End Dispatch.

(** ** Traces *)

Section TraceFacts.
Context (W : World).

Lemma events_push (e : Event) (st : State) :
  events (push e st) = (events st ++ [e])%list.
Proof. reflexivity. Qed.

Lemma writer_push (e : Event) (st : State) : writer (push e st) = writer st.
Proof. reflexivity. Qed.

Lemma answers_app (before l1 l2 : list Event) :
  answers W before (l1 ++ l2)%list
  = (answers W before l1 ++ answers W (before ++ l1) l2)%list.
Proof.
  revert before. induction l1 as [|e l1 IH]; intros before.
  - cbn. now rewrite app_nil_r.
  - cbn [app answers]. rewrite IH, <- !app_assoc. reflexivity.
Qed.

End TraceFacts.

(** Brings the events of a pushed state to the form [events st ++ new]. *)
Ltac flatten_events :=
  rewrite ?events_push, ?writer_push, <- ?app_assoc; cbn [app].

Section DispatchTrace.
Context (W : World).

(** [postAndRead] with its new events spelled out: it returns; it posts
    once; what it returns is decided by the answer to that post. *)
Lemma postAndRead_trace (data : Values) (st : State) :
  exists st' new,
    let answer := httpPostForm W (events st) (telegramAPI W) data in
    V1.postAndRead W data st = (st', Ret (dispatched answer))
    /\ events st' = (events st ++ new)%list
    /\ writer st' = writer st
    /\ postedForms new = [data]
    /\ answers W (events st) new = [answer].
Proof.
  rewrite postAndRead_run. cbv zeta. unfold dispatched.
  destruct (httpPostForm W (events st) (telegramAPI W) data)
    as [msg|response] eqn:Hpost; [|destruct (Body response) as [msg|body] eqn:Hbody];
    eexists _, _; (split; [reflexivity|]);
    (split; [flatten_events; reflexivity|]); (split; [reflexivity|]);
    (split; [reflexivity|]); cbn [answers app]; now rewrite Hpost.
Qed.

(** [postAndRead] after a prefix [pre] of events without posts. *)
Lemma postAndRead_after (data : Values) (st st1 : State) (pre : list Event) :
  events st1 = (events st ++ pre)%list ->
  writer st1 = writer st ->
  postedForms pre = [] -> answers W (events st) pre = [] ->
  exists st' new answer,
    V1.postAndRead W data st1 = (st', Ret (dispatched answer))
    /\ events st' = (events st ++ new)%list
    /\ writer st' = writer st
    /\ postedForms new = [data]
    /\ answers W (events st) new = [answer].
Proof.
  intros Hev Hw Hpre Hans.
  destruct (postAndRead_trace data st1)
    as (st' & new & Hrun & Hev' & Hw' & Hposts & Hans').
  cbv zeta in Hrun, Hans'.
  exists st', (pre ++ new)%list,
         (httpPostForm W (events st1) (telegramAPI W) data).
  split; [exact Hrun|].
  split; [now rewrite Hev', Hev, app_assoc|].
  split; [congruence|].
  split; [now rewrite postedForms_app, Hpre, Hposts|].
  now rewrite answers_app, Hans, <- Hev, Hans'.
Qed.

(** [sendToClient] in every case: it returns, and its one post is the
    one of [postAndRead]. *)
Lemma V1_sendToClient_trace (chatID : Z) (text : string) (st : State) :
  exists st' new data answer,
    V1.sendToClient W chatID text st = (st', Ret (dispatched answer))
    /\ events st' = (events st ++ new)%list
    /\ writer st' = writer st
    /\ postedForms new = [data]
    /\ answers W (events st) new = [answer].
Proof.
  destruct (String.eqb_spec text "/start") as [->|H1];
    [|destruct (String.eqb_spec text "start") as [->|H2]].
  - rewrite V1_sendToClient_slash_start.
    destruct (postAndRead_trace (startValues chatID) st) as (st' & new & H).
    now exists st', new, (startValues chatID),
               (httpPostForm W (events st) (telegramAPI W) (startValues chatID)).
  - rewrite V1_sendToClient_start.
    destruct (postAndRead_trace (startValues chatID) st) as (st' & new & H).
    now exists st', new, (startValues chatID),
               (httpPostForm W (events st) (telegramAPI W) (startValues chatID)).
  - destruct (V1_sendToClient_lookup W chatID text st H1 H2)
      as (k & ks & _ & Hrun). cbv zeta in Hrun. rewrite Hrun.
    match goal with
    | |- context [V1.postAndRead W ?d ?s] =>
        destruct (postAndRead_after d st s
                    [EvVisit (IMDB_URL +:+ Spec.commaJoined k ks)])
          as (st' & new & answer & H);
        [reflexivity | reflexivity | reflexivity | reflexivity |];
        now exists st', new, d, answer
    end.
Qed.

(** The start commands are answered with the greeting. *)
Lemma V1_sendToClient_greets (chatID : Z) (text : string) (st : State) :
  text = "/start" \/ text = "start" ->
  postedForms (events (fst (V1.sendToClient W chatID text st)))
  = (postedForms (events st) ++ [startValues chatID])%list.
Proof.
  intros Htext.
  assert (Hrun : V1.sendToClient W chatID text st
                 = V1.postAndRead W (startValues chatID) st).
  { destruct Htext as [-> | ->];
      [apply V1_sendToClient_slash_start | apply V1_sendToClient_start]. }
  rewrite Hrun.
  destruct (postAndRead_returns W (startValues chatID) st)
    as (st' & result & -> & _ & Hposts).
  exact Hposts.
Qed.

(** Any other text is answered with what the lookup of its keywords
    gave. *)
Lemma V1_sendToClient_replies (chatID : Z) (text : string) (st : State) :
  text <> "/start" -> text <> "start" ->
  exists k ks,
    getKeywords text = k :: ks
    /\ postedForms (events (fst (V1.sendToClient W chatID text st)))
       = (postedForms (events st)
          ++ [replyValues chatID
                (match collyVisit W (events st)
                         (IMDB_URL +:+ Spec.commaJoined k ks) with
                 | inl _ => EmptyString
                 | inr doc => scrape doc
                 end)])%list.
Proof.
  intros H1 H2.
  destruct (V1_sendToClient_lookup W chatID text st H1 H2)
    as (k & ks & Hk & Hrun). cbv zeta in Hrun.
  exists k, ks. split; [exact Hk|]. rewrite Hrun.
  match goal with
  | |- context [V1.postAndRead W ?d ?s] =>
      destruct (postAndRead_returns W d s) as (st' & result & -> & _ & Hposts)
  end.
  cbn [fst]. rewrite Hposts, events_push, postedForms_app. cbn.
  now rewrite app_nil_r.
Qed.

(** The first revision's handler always returns and never touches its
    response writer. *)
Lemma V1_Handler_returns (r : Request) (st : State) :
  exists st', V1.Handler W r st = (st', Ret tt) /\ writer st' = writer st.
Proof.
  unfold V1.Handler.
  destruct (V1_parse_returns W r st) as (st1 & [update err] & Hparse & Hw & _ & Hok).
  erewrite bind_Ret; [|exact Hparse].
  destruct err as [err|].
  { destruct update; (eexists; split; [reflexivity|]); exact Hw. }
  destruct (Hok eq_refl) as [u Hu]. cbn in Hu. subst update.
  destruct (V1_sendToClient_trace (ID (Chat_ (Message_ u)))
              (strings.ToLower (unicodeLower W) (Text (Message_ u))) st1)
    as (st2 & new & data & answer & Hsend & _ & Hw2 & _).
  erewrite bind_Ret; [|exact Hsend].
  destruct (dispatched answer) as [body [err|]];
    (eexists; split; [reflexivity|]); cbn [writer push]; congruence.
Qed.

(** After a successful decoding the handler does what [sendToClient]
    does, up to a line of log. *)
Lemma V1_Handler_posts (r : Request) (u : Update) (st : State) :
  jsonDecode W (Request_Body r) = inr u -> UpdateID u <> 0%Z ->
  postedForms (events (fst (V1.Handler W r st)))
  = postedForms
      (events (fst (V1.sendToClient W (ID (Chat_ (Message_ u)))
                      (strings.ToLower (unicodeLower W) (Text (Message_ u)))
                      st))).
Proof.
  intros Hdec Hid. unfold V1.Handler.
  rewrite (bind_Ret _ _ _ _ _ (V1_parse_ok W r u st Hdec Hid)).
  destruct (V1_sendToClient_trace (ID (Chat_ (Message_ u)))
              (strings.ToLower (unicodeLower W) (Text (Message_ u))) st)
    as (st2 & new & data & answer & Hsend & _).
  erewrite bind_Ret; [|exact Hsend]. rewrite Hsend. cbn [fst].
  destruct (dispatched answer) as [body [err|]];
    cbn [fst log_Printf emit]; rewrite events_push, postedForms_app;
    cbn; now rewrite app_nil_r.
Qed.

End DispatchTrace.

(** ** C8: errors of the reply dispatch (first revision) *)

(** C8: [sendToClient] always returns; it posts exactly once and gets
    one answer (no retry); the error it returns is a transmission error
    exactly when that answer is an error of the post; and whenever the
    answer is a response whose body could be read, the result is that
    body with no error, whatever the status code of the response. *)
Theorem C8_dispatch_errors :
  forall (W : World) (chatID : Z) (text : string) (st : State),
  exists st' result new data answer,
    V1.sendToClient W chatID text st = (st', Ret result)
    /\ events st' = (events st ++ new)%list
    /\ postedForms new = [data]
    /\ answers W (events st) new = [answer]
    /\ ((exists msg, snd result = Some (TransmissionError msg))
        <-> (exists msg, answer = inl msg))
    /\ (forall response body,
           answer = inr response -> Body response = inr body ->
           result = (body, None)).
Proof.
  intros W chatID text st.
  destruct (V1_sendToClient_trace W chatID text st)
    as (st' & new & data & answer & Hrun & Hev & _ & Hposts & Hans).
  exists st', (dispatched answer), new, data, answer.
  repeat (split; [assumption|]). unfold dispatched. split.
  - destruct answer as [msg|response]; [split; eauto|].
    destruct (Body response); split; intros [m [=]].
  - intros response body -> Hbody. now rewrite Hbody.
Qed.

Lemma C8_dispatch_errors_witness :
  snd (V1.sendToClient
         (Sample.worldWith (inr Sample.twoMovies) (inr Sample.badGateway))
         42 "drama" Sample.fresh)
  = Ret ("Bad Gateway", None).
Proof.
  destruct (C8_dispatch_errors
              (Sample.worldWith (inr Sample.twoMovies) (inr Sample.badGateway))
              42 "drama" Sample.fresh)
    as (st' & result & new & data & answer & Hrun & Hev & Hposts & Hans & _ & Hbody).
  rewrite Hrun. cbn [snd]. f_equal.
  apply (Hbody Sample.badGateway); [|reflexivity].
  assert (Hall : forall before evs a,
             In a (answers
                     (Sample.worldWith (inr Sample.twoMovies)
                                       (inr Sample.badGateway))
                     before evs) ->
             a = inr Sample.badGateway).
  { intros before evs. revert before.
    induction evs as [|e evs IH]; intros before a; [intros []|].
    cbn [answers]. intros [Hin|Hin]%in_app_or; [|now apply IH in Hin].
    destruct e; cbn in Hin; now destruct Hin. }
  apply (Hall (events Sample.fresh) new). rewrite Hans. now left.
Defined.

(** ** The second revision's dispatch *)

Section SecondRevision.
Context (W : World).

(** The start command: the greeting is posted, then the empty
    [movies]; either post panics when it fails. *)
Lemma V2_sendToClient_slash_start (chatID : Z) (st : State) :
  let api := telegramAPI W in
  let st1 := push (EvPostForm api (startValues chatID)) st in
  let st2 := push (EvPostForm api (replyValues chatID EmptyString)) st1 in
  V2.sendToClient W chatID "/start" st
  = match httpPostForm W (events st) api (startValues chatID) with
    | inl _ => (st1, Panicked NilDereference)
    | inr first =>
        match httpPostForm W (events st1) api (replyValues chatID EmptyString) with
        | inl _ => (push (EvClose first) st2, Panicked NilDereference)
        | inr second => (push (EvClose first) (push (EvClose second) st2), Ret tt)
        end
    end.
Proof.
  cbv zeta. unfold V2.sendToClient.
  change (String.eqb "/start" "/start") with true. cbv iota. run_effects.
  destruct (httpPostForm W (events st) (telegramAPI W) (startValues chatID))
    as [msg|first]; [reflexivity|].
  run_effects.
  destruct (httpPostForm W _ (telegramAPI W) (replyValues chatID EmptyString))
    as [msg|second]; reflexivity.
Qed.

(** Any other text: the lookup, then the post of what it gave, which
    panics when it fails. *)
Lemma V2_sendToClient_lookup (chatID : Z) (text : string) (st : State) :
  text <> "/start" ->
  exists k ks,
    getKeywords text = k :: ks
    /\ let api := telegramAPI W in
       let URL := IMDB_URL +:+ Spec.commaJoined k ks in
       let movies := match collyVisit W (events st) URL with
                     | inl _ => EmptyString
                     | inr doc => scrape doc
                     end in
       let st1 := push (EvVisit URL) st in
       let st2 := push (EvPostForm api (replyValues chatID movies)) st1 in
       V2.sendToClient W chatID text st
       = match httpPostForm W (events st1) api (replyValues chatID movies) with
         | inl _ => (st2, Panicked NilDereference)
         | inr response => (push (EvClose response) st2, Ret tt)
         end.
Proof.
  intros H1. destruct (getKeywords text) as [|k ks] eqn:Hk;
    [now apply getKeywords_nonempty in Hk|].
  exists k, ks. split; [reflexivity|]. cbv zeta.
  unfold V2.sendToClient. apply String.eqb_neq in H1. rewrite H1.
  change (strings.Split (strings.ReplaceAll text " " EmptyString) ",")
    with (getKeywords text).
  rewrite Hk.
  erewrite bind_Ret;
    [|erewrite bind_Ret; [reflexivity | apply getMovies_cons]].
  run_effects.
  destruct (httpPostForm W _ (telegramAPI W) _) as [msg|response]; reflexivity.
Qed.

(** Settles "some answer is an error iff the outcome is the panic" once
    the answers are known. *)
Ltac settle_answers :=
  cbn [In]; split;
  [split;
   [intros (? & ?); intuition (try discriminate; reflexivity)
   |intros ?; try discriminate; eexists; intuition eauto]
  |intuition eauto].

(** [sendToClient] in every case: it panics exactly when a post it
    made got an error for an answer, and it never logs. *)
Lemma V2_sendToClient_trace (chatID : Z) (text : string) (st : State) :
  exists st' out new,
    V2.sendToClient W chatID text st = (st', out)
    /\ events st' = (events st ++ new)%list
    /\ writer st' = writer st
    /\ logged new = []
    /\ ((exists msg, In (inl msg) (answers W (events st) new))
        <-> out = Panicked NilDereference)
    /\ (out = Ret tt \/ out = Panicked NilDereference).
Proof.
  destruct (String.eqb_spec text "/start") as [->|H1].
  - rewrite V2_sendToClient_slash_start. cbv zeta.
    destruct (httpPostForm W (events st) (telegramAPI W) (startValues chatID))
      as [msg|first] eqn:Hfirst;
      [|destruct (httpPostForm W _ (telegramAPI W) (replyValues chatID EmptyString))
          as [msg|second] eqn:Hsecond];
      eexists _, _, _; (split; [reflexivity|]);
      (split; [flatten_events; reflexivity|]); (split; [reflexivity|]);
      (split; [reflexivity|]); cbn [answers app]; rewrite Hfirst;
      try (rewrite events_push in Hsecond; rewrite Hsecond);
      settle_answers.
  - destruct (V2_sendToClient_lookup chatID text st H1) as (k & ks & _ & Hrun).
    cbv zeta in Hrun. rewrite Hrun.
    destruct (httpPostForm W _ (telegramAPI W) _) as [msg|response] eqn:Hpost;
      eexists _, _, _; (split; [reflexivity|]);
      (split; [flatten_events; reflexivity|]); (split; [reflexivity|]);
      (split; [reflexivity|]); cbn [answers app];
      rewrite events_push in Hpost; rewrite Hpost;
      settle_answers.
Qed.

(** After a successful decoding the handler is [sendToClient]: a panic
    in it is not recovered. *)
Lemma V2_Handler_decoded (r : Request) (u : Update) (st : State) :
  jsonDecode W (Request_Body r) = inr u -> UpdateID u <> 0%Z ->
  V2.Handler W r st
  = V2.sendToClient W (ID (Chat_ (Message_ u)))
      (strings.ToLower (unicodeLower W) (Text (Message_ u))) st.
Proof.
  intros Hdec Hid. unfold V2.Handler.
  now rewrite (bind_Ret _ _ _ _ _ (V2_parse_ok W r u st Hdec Hid)).
Qed.

(** The second revision's handler never touches its response writer
    either, however it ends. *)
Lemma V2_Handler_writer (r : Request) (st : State) :
  writer (fst (V2.Handler W r st)) = writer st.
Proof.
  unfold V2.Handler.
  destruct (V2_parse_returns W r st) as (st1 & [update err] & Hparse & Hw & _ & Hok).
  rewrite (bind_Ret _ _ _ _ _ Hparse).
  destruct err as [err|]; [now destruct update|].
  destruct (Hok eq_refl) as [u Hu]. cbn in Hu. subst update.
  destruct (V2_sendToClient_trace (ID (Chat_ (Message_ u)))
              (strings.ToLower (unicodeLower W) (Text (Message_ u))) st1)
    as (st2 & out & new & -> & _ & Hw2 & _).
  cbn [fst]. congruence.
Qed.

End SecondRevision.

(** ** C10: the failed post in the second revision *)

(** C10: in the second revision [sendToClient] drops the error of
    [http.PostForm] and dereferences the response: it panics with a nil
    dereference exactly when a post it makes fails, having logged
    nothing; the handler does not recover, so the panic is the outcome of
    the request. *)
Theorem C10_failed_post_panics :
  (forall (W : World) (chatID : Z) (text : string) (st : State),
    exists st' out new,
      V2.sendToClient W chatID text st = (st', out)
      /\ events st' = (events st ++ new)%list
      /\ logged new = []
      /\ ((exists msg, In (inl msg) (answers W (events st) new))
          <-> out = Panicked NilDereference))
  /\ (forall (W : World) (r : Request) (u : Update) (st : State),
        jsonDecode W (Request_Body r) = inr u -> UpdateID u <> 0%Z ->
        V2.Handler W r st
        = V2.sendToClient W (ID (Chat_ (Message_ u)))
            (strings.ToLower (unicodeLower W) (Text (Message_ u))) st).
Proof.
  split.
  - intros W chatID text st.
    destruct (V2_sendToClient_trace W chatID text st)
      as (st' & out & new & Hrun & Hev & _ & Hlog & Hpanic & _).
    now exists st', out, new.
  - intros W r u st. apply V2_Handler_decoded.
Qed.

Lemma C10_failed_post_panics_witness :
  snd (V2.Handler (Sample.world true false) (Sample.request "Drama, Heist")
                  Sample.fresh)
  = Panicked NilDereference.
Proof.
  rewrite (proj2 C10_failed_post_panics (Sample.world true false)
             (Sample.request "Drama, Heist") (Sample.update 7 42 "Drama, Heist")
             Sample.fresh eq_refl ltac:(discriminate)).
  destruct (proj1 C10_failed_post_panics (Sample.world true false) 42%Z
              "drama,heist" Sample.fresh)
    as (st' & out & new & Hrun & Hev & _ & Hpanic).
  change (snd (V2.sendToClient (Sample.world true false) 42 "drama,heist"
                 Sample.fresh) = Panicked NilDereference).
  assert (Hnew : new = events (fst (V2.sendToClient (Sample.world true false) 42
                                      "drama,heist" Sample.fresh)))
    by (rewrite Hrun; exact (eq_sym Hev)).
  rewrite Hrun. apply Hpanic. exists Sample.refused. rewrite Hnew.
  vm_compute. tauto.
Defined.

(** ** Scrape failures, and what the failed post does to the request *)

Section ScrapeFailure.
Context (W : World).

(** When the visit fails [getMovies] returns the empty string: the
    error is neither returned nor raised. *)
Lemma getMovies_visit_failed (k : string) (ks : list string) (st : State) (msg : string) :
  collyVisit W (events st) (IMDB_URL +:+ Spec.commaJoined k ks) = inl msg ->
  getMovies W (k :: ks) st
  = (push (EvVisit (IMDB_URL +:+ Spec.commaJoined k ks)) st, Ret EmptyString).
Proof. intros H. rewrite getMovies_cons. cbv zeta. now rewrite H. Qed.

(** First revision, scraped site down: the reply is empty and the
    handler returns, whether the post succeeds or not. *)
Lemma V1_scrape_failure (r : Request) (u : Update) (st : State) :
  jsonDecode W (Request_Body r) = inr u -> UpdateID u <> 0%Z ->
  let text := strings.ToLower (unicodeLower W) (Text (Message_ u)) in
  text <> "/start" -> text <> "start" ->
  (forall past url, exists msg, collyVisit W past url = inl msg) ->
  snd (V1.Handler W r st) = Ret tt
  /\ postedForms (events (fst (V1.Handler W r st)))
     = (postedForms (events st)
        ++ [replyValues (ID (Chat_ (Message_ u))) EmptyString])%list.
Proof.
  intros Hdec Hid text H1 H2 Hdown. split.
  - destruct (V1_Handler_returns W r st) as (st' & -> & _). reflexivity.
  - rewrite (V1_Handler_posts W r u st Hdec Hid). fold text.
    destruct (V1_sendToClient_replies W (ID (Chat_ (Message_ u))) text st H1 H2)
      as (k & ks & _ & ->).
    now destruct (Hdown (events st) (IMDB_URL +:+ Spec.commaJoined k ks)) as [msg ->].
Qed.

(** Second revision, scraped site down: the reply is empty as well, but
    the handler returns only if the post of that reply succeeds. *)
Lemma V2_scrape_failure (r : Request) (u : Update) (st : State) :
  jsonDecode W (Request_Body r) = inr u -> UpdateID u <> 0%Z ->
  let text := strings.ToLower (unicodeLower W) (Text (Message_ u)) in
  let chat := ID (Chat_ (Message_ u)) in
  text <> "/start" ->
  (forall past url, exists msg, collyVisit W past url = inl msg) ->
  exists visit,
    postedForms (events (fst (V2.Handler W r st)))
    = (postedForms (events st) ++ [replyValues chat EmptyString])%list
    /\ snd (V2.Handler W r st)
       = match httpPostForm W (events st ++ [visit]) (telegramAPI W)
                 (replyValues chat EmptyString) with
         | inl _ => Panicked NilDereference
         | inr _ => Ret tt
         end.
Proof.
  intros Hdec Hid text chat H1 Hdown.
  rewrite (V2_Handler_decoded W r u st Hdec Hid). fold text chat.
  destruct (V2_sendToClient_lookup W chat text st H1) as (k & ks & _ & Hrun).
  cbv zeta in Hrun. rewrite Hrun. clear Hrun.
  destruct (Hdown (events st) (IMDB_URL +:+ Spec.commaJoined k ks)) as [msg ->].
  exists (EvVisit (IMDB_URL +:+ Spec.commaJoined k ks)). rewrite events_push.
  destruct (httpPostForm W _ (telegramAPI W) _); cbn [fst snd];
    (split; [|reflexivity]); flatten_events; rewrite postedForms_app; cbn;
    reflexivity.
Qed.

End ScrapeFailure.

(** Scraped site and Telegram both refusing the connection, inbound text
    ["Drama, Heist"]: both revisions post the empty reply; the first
    returns, the second panics on the failed post. *)
Example scenario_offline :
  let W := Sample.world false false in
  let r := Sample.request "Drama, Heist" in
  postedForms (events (fst (V1.Handler W r Sample.fresh))) = [replyValues 42 EmptyString]
  /\ snd (V1.Handler W r Sample.fresh) = Ret tt
  /\ postedForms (events (fst (V2.Handler W r Sample.fresh))) = [replyValues 42 EmptyString]
  /\ snd (V2.Handler W r Sample.fresh) = Panicked NilDereference.
Proof. cbv zeta. repeat split; vm_compute; reflexivity. Qed.

(** C9, at the failing input: Telegram refusing the connection.  Neither
    revision writes to the response; the first returns, so the server
    answers with its implicit success status; the second panics. *)
Theorem C9_dispatch_failure_panics :
  let W := Sample.world true false in
  let r := Sample.request "Drama, Heist" in
  writer (fst (V1.Handler W r Sample.fresh)) = writer Sample.fresh
  /\ snd (V1.Handler W r Sample.fresh) = Ret tt
  /\ writer (fst (V2.Handler W r Sample.fresh)) = writer Sample.fresh
  /\ snd (V2.Handler W r Sample.fresh) = Panicked NilDereference.
Proof. cbv zeta. repeat split; vm_compute; reflexivity. Qed.

(** ** The scenarios of the specification, run end to end *)

Example scenario_drama_heist :
  postedForms
    (events (fst (V1.Handler (Sample.world true true)
                             (Sample.request "Drama, Heist") Sample.fresh)))
  = [replyValues 42 ("Movie One" +:+ newline +:+ "Movie Two" +:+ newline)]
  /\ visited
       (events (fst (V1.Handler (Sample.world true true)
                                (Sample.request "Drama, Heist") Sample.fresh)))
     = [IMDB_URL +:+ "drama%2Cheist"].
Proof. split; vm_compute; reflexivity. Qed.

Example scenario_zero_update_id :
  V1.Handler (Sample.world true true) (Sample.request "{}") Sample.fresh
  = (push (EvLog "error parsing incoming update, %s"
             ["invalid update id. 0 indicates failure to parse incoming update"])
       (push (EvLog "invalid update id, got update id = 0" []) Sample.fresh),
     Ret tt).
Proof. reflexivity. Qed.

(* ===================================================================== *)
(** * Part III: further properties of the code                            *)
(* ===================================================================== *)

(** ** Keywords *)

Section KeywordFacts.

Lemma concat_cons (sep x y : string) (l : list string) :
  String.concat sep (x :: y :: l) = x +:+ sep +:+ String.concat sep (y :: l).
Proof. reflexivity. Qed.

(** Joining the pieces with the separator gives the string back. *)
Lemma concat_splitOn (sep : ascii) (s : string) :
  String.concat (String sep EmptyString) (Spec.splitOn sep s) = s.
Proof.
  induction s as [|c s IH]; [reflexivity|].
  cbn [Spec.splitOn].
  destruct (Spec.splitOn sep s) as [|p ps] eqn:E; [now apply splitOn_nonempty in E|].
  destruct (Ascii.eqb_spec c sep) as [->|Hne].
  - rewrite concat_cons, IH. reflexivity.
  - destruct ps as [|q ps].
    + cbn in IH |- *. now rewrite IH.
    + rewrite concat_cons in IH |- *. now rewrite append_cons, IH.
Qed.

Lemma length_splitOn (sep : ascii) (s : string) :
  List.length (Spec.splitOn sep s) = S (countByte sep s).
Proof.
  unfold countByte, bytes. induction s as [|c s IH]; [reflexivity|].
  cbn [Spec.splitOn list_ascii_of_string List.filter].
  destruct (Ascii.eqb c sep); cbn [List.length]; [now rewrite IH|].
  destruct (Spec.splitOn sep s) as [|p ps] eqn:E; [now apply splitOn_nonempty in E|].
  exact IH.
Qed.

(** The bytes of a piece are bytes of the string, none the separator. *)
Lemma splitOn_bytes (sep : ascii) (s k : string) (c : ascii) :
  In k (Spec.splitOn sep s) -> In c (bytes k) -> c <> sep /\ In c (bytes s).
Proof.
  unfold bytes. revert k. induction s as [|a s IH]; intros k.
  - cbn. intros [<-|[]] [].
  - cbn [Spec.splitOn].
    destruct (Spec.splitOn sep s) as [|p ps] eqn:E; [now apply splitOn_nonempty in E|].
    destruct (Ascii.eqb_spec a sep) as [->|Hne].
    + intros [<-|Hin] Hc; [now destruct Hc|].
      destruct (IH k Hin Hc) as [? ?]. split; [assumption | now right].
    + intros [<-|Hin] Hc.
      * cbn in Hc. destruct Hc as [<-|Hc]; [split; [assumption | now left]|].
        destruct (IH p (or_introl eq_refl) Hc) as [? ?].
        split; [assumption | now right].
      * destruct (IH k (or_intror Hin) Hc) as [? ?].
        split; [assumption | now right].
Qed.

Lemma filterBytes_bytes (keep : ascii -> bool) (s : string) (c : ascii) :
  In c (bytes (Spec.filterBytes keep s)) <-> In c (bytes s) /\ keep c = true.
Proof.
  unfold bytes. induction s as [|a s IH]; [cbn; tauto|].
  cbn [Spec.filterBytes]. destruct (keep a) eqn:Ha; cbn [list_ascii_of_string In];
    rewrite IH; intuition (subst; congruence).
Qed.

Lemma countByte_filterBytes (b : ascii) (keep : ascii -> bool) (s : string) :
  keep b = true -> countByte b (Spec.filterBytes keep s) = countByte b s.
Proof.
  intros Hb. unfold countByte, bytes. induction s as [|a s IH]; [reflexivity|].
  cbn [Spec.filterBytes]. destruct (keep a) eqn:Ha;
    cbn [list_ascii_of_string List.filter].
  - destruct (Ascii.eqb a b); cbn [List.length]; now rewrite IH.
  - destruct (Ascii.eqb_spec a b) as [->|_]; [congruence | exact IH].
Qed.

Lemma filterBytes_id (keep : ascii -> bool) (s : string) :
  (forall c, In c (bytes s) -> keep c = true) -> Spec.filterBytes keep s = s.
Proof.
  unfold bytes. induction s as [|a s IH]; intros H; [reflexivity|].
  cbn [Spec.filterBytes]. rewrite (H a) by now left.
  f_equal. apply IH. intros c Hc. apply H. now right.
Qed.

Lemma getKeywords_splitOn (text : string) :
  getKeywords text = Spec.splitOn "," (Spec.stripSpaces text).
Proof. unfold getKeywords. now rewrite ReplaceAll_space, Split_byte. Qed.

(** Replacing a byte by a string, in terms of the pieces around it. *)
Lemma replace_scan_pieces (b : ascii) (new s : string) :
  strings.replace_scan (String b EmptyString) new 0 s
  = match Spec.splitOn b s with
    | first :: others =>
        first +:+ foldr (fun k rest => new +:+ k +:+ rest) EmptyString others
    | [] => EmptyString
    end.
Proof.
  induction s as [|c s IH]; [reflexivity|].
  cbn [strings.replace_scan Spec.splitOn]. rewrite prefix_byte.
  cbn [String.length Nat.sub]. rewrite IH.
  destruct (Spec.splitOn b s) as [|p ps] eqn:E; [now apply splitOn_nonempty in E|].
  destruct (Ascii.eqb c b); reflexivity.
Qed.

End KeywordFacts.

(** X1: joining the keywords with commas gives back the text without its
    spaces: extraction loses nothing but the spaces, keeps the order and
    keeps empty keywords. *)
Theorem X1_keywords_join_back :
  forall text : string,
    String.concat "," (getKeywords text) = strings.ReplaceAll text " " EmptyString.
Proof.
  intros text. rewrite getKeywords_splitOn, ReplaceAll_space.
  apply concat_splitOn.
Qed.

Lemma getKeywords_bytes (text k : string) (c : ascii) :
  In k (getKeywords text) -> In c (bytes k) ->
  c <> " "%char /\ c <> ","%char /\ In c (bytes text).
Proof.
  intros Hk Hc. rewrite getKeywords_splitOn in Hk.
  destruct (splitOn_bytes _ _ _ _ Hk Hc) as [Hcomma Hin].
  apply filterBytes_bytes in Hin as [Hin Hkeep].
  repeat split; try assumption.
  intros ->. discriminate.
Qed.

(** X2: no keyword contains a space or a comma, and every byte of a
    keyword is a byte of the text. *)
Theorem X2_keywords_bytes :
  forall (text k : string) (c : ascii),
    In k (getKeywords text) -> In c (bytes k) ->
    c <> " "%char /\ c <> ","%char /\ In c (bytes text).
Proof. exact getKeywords_bytes. Qed.

Lemma X2_keywords_bytes_witness :
  ("g"%char <> " "%char /\ "g"%char <> ","%char)
  /\ In "g"%char (bytes "the godfather, heat").
Proof.
  destruct (X2_keywords_bytes "the godfather, heat" "thegodfather" "g"%char)
    as (H1 & H2 & H3).
  - vm_compute. tauto.
  - vm_compute. tauto.
  - repeat split; assumption.
Defined.

(** X3: there is one keyword more than there are commas in the text, so
    at least one: an empty text gives one empty keyword, and commas in a
    row give empty keywords between them. *)
Theorem X3_keywords_count :
  forall text : string,
    List.length (getKeywords text) = S (countByte "," text).
Proof.
  intros text. rewrite getKeywords_splitOn, length_splitOn.
  f_equal. now apply countByte_filterBytes.
Qed.

(** X4: a text without a comma is one keyword, the text with every space
    removed, the ones between words included; without spaces either, it
    is the text itself. *)
Theorem X4_single_keyword :
  forall text : string,
    countByte "," text = 0 ->
    getKeywords text = [strings.ReplaceAll text " " EmptyString]
    /\ (countByte " " text = 0 -> getKeywords text = [text]).
Proof.
  intros text Hcommas.
  assert (Hone : getKeywords text = [strings.ReplaceAll text " " EmptyString]).
  { pose proof (Hjoin := concat_splitOn "," (Spec.stripSpaces text)).
    pose proof (Hlen := length_splitOn "," (Spec.stripSpaces text)).
    unfold Spec.stripSpaces in Hlen at 2.
    rewrite countByte_filterBytes, Hcommas in Hlen by reflexivity.
    rewrite getKeywords_splitOn, ReplaceAll_space.
    destruct (Spec.splitOn "," (Spec.stripSpaces text)) as [|k [|k' ks]];
      try discriminate.
    cbn in Hjoin. now rewrite Hjoin. }
  split; [exact Hone|].
  intros Hspaces. rewrite Hone, ReplaceAll_space. f_equal.
  apply filterBytes_id. intros c Hc.
  destruct (Ascii.eqb_spec c " ") as [->|]; [|reflexivity]. exfalso.
  revert Hspaces Hc. unfold countByte, bytes. clear.
  induction (list_ascii_of_string text) as [|a l IH]; [intros _ []|].
  cbn [List.filter]. destruct (Ascii.eqb_spec a " ") as [->|Hne]; [discriminate|].
  intros H [->|Hin]; [congruence | now apply IH].
Qed.

Lemma X4_single_keyword_witness :
  getKeywords "the godfather" = ["thegodfather"].
Proof.
  apply (proj1 (X4_single_keyword "the godfather" eq_refl)).
Defined.

(** ** From the text of a message to the page scraped *)

Section LookupFacts.
Context (W : World).

Lemma prefix_append (s t : string) : String.prefix s (s +:+ t) = true.
Proof.
  induction s as [|c s IH]; [apply prefix_nil|].
  rewrite append_cons. cbn. now destruct (ascii_dec c c).
Qed.

(** The lookup of the keywords of a text, in one step. *)
Lemma getMovies_getKeywords (text : string) (st : State) :
  let URL :=
    IMDB_URL
    +:+ strings.ReplaceAll (strings.ReplaceAll text " " EmptyString) "," "%2C" in
  getMovies W (getKeywords text) st
  = (push (EvVisit URL) st,
     Ret (match collyVisit W (events st) URL with
          | inl _ => EmptyString
          | inr doc => scrape doc
          end)).
Proof.
  cbv zeta.
  assert (Hurl : strings.ReplaceAll (strings.ReplaceAll text " " EmptyString) "," "%2C"
                 = match getKeywords text with
                   | k :: ks => Spec.commaJoined k ks
                   | [] => EmptyString
                   end).
  { rewrite getKeywords_splitOn, ReplaceAll_space.
    unfold strings.ReplaceAll. cbn [String.eqb Ascii.eqb Bool.eqb].
    apply replace_scan_pieces. }
  rewrite Hurl.
  destruct (getKeywords text) as [|k ks] eqn:Hk;
    [now apply getKeywords_nonempty in Hk|].
  apply getMovies_cons.
Qed.

Lemma length_append (s t : string) :
  String.length (s +:+ t) = String.length s + String.length t.
Proof.
  induction s as [|c s IH]; [reflexivity|].
  rewrite append_cons. cbn [String.length]. now rewrite IH.
Qed.

Lemma bytes_mapBytes (f : ascii -> ascii) (s : string) (c : ascii) :
  In c (bytes (strings.mapBytes f s)) -> exists a, In a (bytes s) /\ c = f a.
Proof.
  unfold bytes. induction s as [|a s IH]; [intros []|].
  cbn. intros [<-|Hin]; [eauto|].
  destruct (IH Hin) as (a' & ? & ?). eauto.
Qed.

Lemma lowerByte_not_upper (a : ascii) : isUpper (strings.lowerByte a) = false.
Proof.
  unfold strings.lowerByte, isUpper.
  destruct ((65 <=? N_of_ascii a) && (N_of_ascii a <=? 90))%N eqn:Hup;
    [|exact Hup].
  apply andb_true_iff in Hup as [H1 H2].
  apply N.leb_le in H1, H2.
  rewrite N_ascii_embedding by lia.
  apply andb_false_iff. right. apply N.leb_gt. lia.
Qed.

Lemma scrape_nil_iff (doc : html.Node) :
  scrape doc = EmptyString <-> goquery.Find headerSelector [doc] = [].
Proof.
  rewrite scrape_titleLines.
  destruct (goquery.Find headerSelector [doc]) as [|h hs]; [tauto|].
  split; [|discriminate]. cbn [Spec.titleLines foldr].
  destruct (Spec.title h); discriminate.
Qed.

End LookupFacts.

(** X5: for every text, the lookup of its keywords never panics and
    visits exactly the search address followed by the text with its
    spaces removed and each comma replaced by ["%2C"]; what it returns is
    the scraped titles, or nothing when the visit fails. *)
Theorem X5_lookup_of_text :
  forall (W : World) (text : string) (st : State),
    let URL :=
      IMDB_URL
      +:+ strings.ReplaceAll (strings.ReplaceAll text " " EmptyString) "," "%2C" in
    getMovies W (getKeywords text) st
    = (push (EvVisit URL) st,
       Ret (match collyVisit W (events st) URL with
            | inl _ => EmptyString
            | inr doc => scrape doc
            end)).
Proof. intros W text st. apply getMovies_getKeywords. Qed.

(** After lower-casing, the keywords of a text of ASCII bytes hold no
    upper-case letter. *)
Lemma lowered_keywords (lower : string -> string) (text k : string) (c : ascii) :
  strings.isASCII text = true ->
  In k (getKeywords (strings.ToLower lower text)) ->
  In c (bytes k) ->
  isUpper c = false.
Proof.
  intros Hascii Hk Hc. unfold strings.ToLower in Hk.
  rewrite Hascii in Hk.
  destruct (getKeywords_bytes _ _ _ Hk Hc) as (_ & _ & Hin).
  apply bytes_mapBytes in Hin as (a & _ & ->).
  apply lowerByte_not_upper.
Qed.

(** X7: the scraped text is empty exactly when no element of the
    document matches the heading selector; every match adds at least its
    newline. *)
Theorem X7_empty_scrape :
  forall doc : html.Node,
    (scrape doc = EmptyString <-> goquery.Find headerSelector [doc] = [])
    /\ List.length (goquery.Find headerSelector [doc]) <= String.length (scrape doc).
Proof.
  intros doc. split; [apply scrape_nil_iff|].
  rewrite scrape_titleLines.
  induction (goquery.Find headerSelector [doc]) as [|h hs IH]; [cbn; lia|].
  cbn [Spec.titleLines foldr List.length]. fold (Spec.titleLines hs).
  rewrite !length_append. cbn [String.length newline]. lia.
Qed.

(** ** What a request does to the network (first revision) *)

Section FirstRevisionObserved.
Context (W : World).

Lemma posts_app (e1 e2 : list Event) :
  posts (e1 ++ e2)%list = (posts e1 ++ posts e2)%list.
Proof. apply omap_app. Qed.

Lemma readBodies_app (e1 e2 : list Event) :
  readBodies (e1 ++ e2)%list = (readBodies e1 ++ readBodies e2)%list.
Proof. apply omap_app. Qed.

Lemma closed_app (e1 e2 : list Event) :
  closed (e1 ++ e2)%list = (closed e1 ++ closed e2)%list.
Proof. apply omap_app. Qed.

Lemma logged_app (e1 e2 : list Event) :
  logged (e1 ++ e2)%list = (logged e1 ++ logged e2)%list.
Proof. apply omap_app. Qed.

Lemma V1_sendToClient_looks_up (chatID : Z) (text : string) (st : State) :
  text <> "/start" -> text <> "start" ->
  V1.sendToClient W chatID text st
  = V1.postAndRead W (replyValues chatID (lookupReply W text st))
      (push (EvVisit (lookupURL text)) st).
Proof.
  intros H1 H2. unfold V1.sendToClient.
  apply String.eqb_neq in H1, H2. rewrite H1, H2.
  erewrite bind_Ret;
    [|erewrite bind_Ret; [reflexivity | apply getMovies_getKeywords]].
  now rewrite Values_Add_text.
Qed.

(** Everything [postAndRead] does, projected on each kind of event. *)
Lemma postAndRead_observed (data : Values) (st st1 : State) (pre : list Event) :
  events st1 = (events st ++ pre)%list ->
  writer st1 = writer st ->
  posts pre = [] -> answers W (events st) pre = [] ->
  readBodies pre = [] -> closed pre = [] -> logged pre = [] ->
  exists st' new answer,
    V1.postAndRead W data st1 = (st', Ret (dispatched answer))
    /\ events st' = (events st ++ new)%list
    /\ writer st' = writer st
    /\ posts new = [(telegramAPI W, data)]
    /\ answers W (events st) new = [answer]
    /\ readBodies new = received [answer]
    /\ closed new = received [answer]
    /\ logged new = [dispatchLog answer]
    /\ visited new = visited pre.
Proof.
  intros Hev Hw Hposts Hans Hread Hclosed Hlog.
  rewrite postAndRead_run. cbv zeta.
  destruct (httpPostForm W (events st1) (telegramAPI W) data)
    as [msg|response] eqn:Hpost; [|destruct (Body response) as [msg|body] eqn:Hbody].
  all: match type of Hpost with _ = ?a => eexists _, _, a end.
  all: unfold dispatched, dispatchLog; rewrite ?Hbody; (split; [reflexivity|]).
  all: split; [flatten_events; rewrite Hev, <- app_assoc; reflexivity|].
  all: split; [exact Hw|].
  all: rewrite posts_app, answers_app, readBodies_app, closed_app, logged_app,
         visited_app, Hposts, Hans, Hread, Hclosed, Hlog, <- Hev.
  all: cbn [app answers posts readBodies closed logged visited omap received].
  all: rewrite ?Hpost, ?Hbody, ?app_nil_r; repeat split; reflexivity.
Qed.

(** Everything [sendToClient] does. *)
Lemma V1_sendToClient_observed (chatID : Z) (text : string) (st : State) :
  exists st' new reply answer,
    V1.sendToClient W chatID text st = (st', Ret (dispatched answer))
    /\ events st' = (events st ++ new)%list
    /\ writer st' = writer st
    /\ posts new = [(telegramAPI W, replyValues chatID reply)]
    /\ answers W (events st) new = [answer]
    /\ readBodies new = received [answer]
    /\ closed new = received [answer]
    /\ logged new = [dispatchLog answer]
    /\ (text = "/start" \/ text = "start" -> visited new = [] /\ reply = greeting)
    /\ (text <> "/start" -> text <> "start" ->
        visited new = [lookupURL text] /\ reply = lookupReply W text st).
Proof.
  destruct (String.eqb_spec text "/start") as [->|H1];
    [|destruct (String.eqb_spec text "start") as [->|H2]].
  - rewrite V1_sendToClient_slash_start.
    destruct (postAndRead_observed (startValues chatID) st st [])
      as (st' & new & answer & H); try reflexivity; [now rewrite app_nil_r|].
    exists st', new, greeting, answer.
    decompose [and] H. repeat (split; [assumption|]).
    split; [now split | intros; congruence].
  - rewrite V1_sendToClient_start.
    destruct (postAndRead_observed (startValues chatID) st st [])
      as (st' & new & answer & H); try reflexivity; [now rewrite app_nil_r|].
    exists st', new, greeting, answer.
    decompose [and] H. repeat (split; [assumption|]).
    split; [now split | intros; congruence].
  - rewrite (V1_sendToClient_looks_up chatID text st H1 H2).
    destruct (postAndRead_observed (replyValues chatID (lookupReply W text st)) st
                (push (EvVisit (lookupURL text)) st) [EvVisit (lookupURL text)])
      as (st' & new & answer & H); try reflexivity.
    exists st', new, (lookupReply W text st), answer.
    decompose [and] H. repeat (split; [assumption|]).
    split; [intros [?|?]; congruence | now split].
Qed.

(** Everything the handler does for an update it accepts. *)
Lemma V1_Handler_observed (r : Request) (u : Update) (st : State) :
  jsonDecode W (Request_Body r) = inr u -> UpdateID u <> 0%Z ->
  let chat := ID (Chat_ (Message_ u)) in
  let text := strings.ToLower (unicodeLower W) (Text (Message_ u)) in
  exists st' new reply answer,
    V1.Handler W r st = (st', Ret tt)
    /\ events st' = (events st ++ new)%list
    /\ posts new = [(telegramAPI W, replyValues chat reply)]
    /\ answers W (events st) new = [answer]
    /\ readBodies new = received [answer]
    /\ closed new = received [answer]
    /\ logged new = [dispatchLog answer; finalLog answer]
    /\ (text = "/start" \/ text = "start" -> visited new = [] /\ reply = greeting)
    /\ (text <> "/start" -> text <> "start" ->
        visited new = [lookupURL text] /\ reply = lookupReply W text st).
Proof.
  intros Hdec Hid chat text. unfold V1.Handler.
  rewrite (bind_Ret _ _ _ _ _ (V1_parse_ok W r u st Hdec Hid)).
  destruct (V1_sendToClient_observed chat text st)
    as (st1 & new & reply & answer & Hrun & Hev & Hw & Hposts & Hans & Hread
        & Hclosed & Hlog & Hstart & Hlookup).
  fold chat text. rewrite (bind_Ret _ _ _ _ _ Hrun). unfold finalLog.
  destruct (dispatched answer) as [body [err|]] eqn:Hd;
    eexists _, (new ++ [_])%list, reply, answer; (split; [reflexivity|]);
    (split; [flatten_events; rewrite Hev, <- app_assoc; reflexivity|]);
    rewrite posts_app, answers_app, readBodies_app, closed_app, logged_app,
      visited_app, Hposts, Hans, Hread, Hclosed, Hlog, Hd;
    cbn [app answers posts readBodies closed logged visited omap snd];
    rewrite ?app_nil_r; repeat (split; [reflexivity|]); split; assumption.
Qed.

End FirstRevisionObserved.

(** X8: for a payload that does not decode, or decodes to update
    identifier zero, both revisions of the handler return after logging
    two lines: they visit no page and post no reply. *)
Theorem X8_rejected_payload_is_dropped :
  forall (W : World) (r : Request) (st : State),
    (exists msg, jsonDecode W (Request_Body r) = inl msg)
    \/ (exists u, jsonDecode W (Request_Body r) = inr u /\ UpdateID u = 0%Z) ->
    (exists new,
        events (fst (V1.Handler W r st)) = (events st ++ new)%list
        /\ snd (V1.Handler W r st) = Ret tt
        /\ posts new = [] /\ visited new = [] /\ List.length (logged new) = 2)
    /\ (exists new,
           events (fst (V2.Handler W r st)) = (events st ++ new)%list
           /\ snd (V2.Handler W r st) = Ret tt
           /\ posts new = [] /\ visited new = [] /\ List.length (logged new) = 2).
Proof.
  intros W r st [[msg Hdec]|[u [Hdec Hid]]];
    unfold V1.Handler, V1.parseIncomingRequest, V2.Handler, V2.parseIncomingRequest;
    rewrite Hdec, ?Hid, ?Z.eqb_refl; run_effects;
    (split; eexists; (split; [flatten_events; reflexivity|]);
     repeat split; reflexivity).
Qed.

Lemma X8_rejected_payload_is_dropped_witness :
  snd (V2.Handler (Sample.world true false) (Sample.request "{}") Sample.fresh)
  = Ret tt.
Proof.
  destruct (X8_rejected_payload_is_dropped (Sample.world true false)
              (Sample.request "{}") Sample.fresh) as [_ (new & _ & Hret & _)].
  - right. exists (Sample.update 0 0 EmptyString). split; reflexivity.
  - exact Hret.
Defined.

(** X9: for every update it accepts, the first revision's handler returns
    having posted exactly one form, to the Telegram address built from
    the token in the environment, with the chat id of the update in
    decimal as its [chat_id]; it visits at most one page, whose address
    begins with the search endpoint. *)
Theorem X9_one_reply_per_update :
  forall (W : World) (r : Request) (u : Update) (st : State),
    jsonDecode W (Request_Body r) = inr u -> UpdateID u <> 0%Z ->
    let chat := ID (Chat_ (Message_ u)) in
    exists st' new reply,
      V1.Handler W r st = (st', Ret tt)
      /\ events st' = (events st ++ new)%list
      /\ posts new
         = [(TELEGRAM_API_BASE_URL +:+ Getenv W "TELEGRAM_BOT_TOKEN" +:+ "/sendMessage",
             replyValues chat reply)]
      /\ replyValues chat reply !! "chat_id" = Some [strconv.Itoa chat]
      /\ replyValues chat reply !! "text" = Some [reply]
      /\ List.length (visited new) <= 1
      /\ (forall url, In url (visited new) -> String.prefix IMDB_URL url = true).
Proof.
  intros W r u st Hdec Hid chat.
  destruct (V1_Handler_observed W r u st Hdec Hid)
    as (st' & new & reply & answer & Hrun & Hev & Hposts & _ & _ & _ & _
        & Hstart & Hlookup).
  exists st', new, reply. repeat (split; [assumption|]).
  split; [apply lookup_insert_eq|]. split; [apply replyValues_text|].
  set (text := strings.ToLower (unicodeLower W) (Text (Message_ u))) in *.
  destruct (String.eqb_spec text "/start") as [H1|H1];
    [|destruct (String.eqb_spec text "start") as [H2|H2]].
  - destruct (Hstart (or_introl H1)) as [-> _]. split; [cbn; lia | intros ? []].
  - destruct (Hstart (or_intror H2)) as [-> _]. split; [cbn; lia | intros ? []].
  - destruct (Hlookup H1 H2) as [-> _]. split; [cbn; lia|].
    intros url [<-|[]]. apply prefix_append.
Qed.

Lemma X9_one_reply_per_update_witness :
  snd (V1.Handler (Sample.world true false) (Sample.request "Drama, Heist")
                  Sample.fresh)
  = Ret tt.
Proof.
  destruct (X9_one_reply_per_update (Sample.world true false)
              (Sample.request "Drama, Heist") (Sample.update 7 42 "Drama, Heist")
              Sample.fresh eq_refl ltac:(discriminate))
    as (st' & new & reply & Hrun & _).
  now rewrite Hrun.
Defined.

(** X10: the first revision's [sendToClient] reads to the end and closes
    the body of every response it receives, once each, and reads or
    closes nothing when the post fails. *)
Theorem X10_responses_are_closed :
  forall (W : World) (chatID : Z) (text : string) (st : State),
  exists st' result new,
    V1.sendToClient W chatID text st = (st', Ret result)
    /\ events st' = (events st ++ new)%list
    /\ readBodies new = received (answers W (events st) new)
    /\ closed new = received (answers W (events st) new)
    /\ List.length (closed new) <= 1.
Proof.
  intros W chatID text st.
  destruct (V1_sendToClient_observed W chatID text st)
    as (st' & new & reply & answer & Hrun & Hev & _ & _ & Hans & Hread & Hclosed & _).
  exists st', (dispatched answer), new.
  rewrite Hans, Hread, Hclosed. repeat (split; [assumption || reflexivity|]).
  destruct answer; cbn; lia.
Qed.

(** X11: for an update it accepts, the first revision's handler logs
    "successfully distributed" exactly when the post was answered and the
    body of the response could be read; otherwise it logs the error it
    got.  The status code of the response plays no part. *)
Theorem X11_success_is_logged :
  forall (W : World) (r : Request) (u : Update) (st : State),
    jsonDecode W (Request_Body r) = inr u -> UpdateID u <> 0%Z ->
    exists st' new,
      V1.Handler W r st = (st', Ret tt)
      /\ events st' = (events st ++ new)%list
      /\ (In "successfully distributed to chat id %d" (logged new)
          <-> exists response body,
                answers W (events st) new = [inr response]
                /\ Body response = inr body)
      /\ (In "got error %s from telegram, response body is %s" (logged new)
          <-> ~ In "successfully distributed to chat id %d" (logged new)).
Proof.
  intros W r u st Hdec Hid.
  destruct (V1_Handler_observed W r u st Hdec Hid)
    as (st' & new & reply & answer & Hrun & Hev & _ & Hans & _ & _ & Hlog & _).
  exists st', new. repeat (split; [assumption|]).
  rewrite Hlog, Hans. unfold dispatchLog, finalLog, dispatched.
  destruct answer as [msg|response]; [|destruct (Body response) as [msg|body] eqn:Hb];
    cbn [snd In]; split; split.
  all: try (intros [H|[H|[]]]; discriminate).
  all: try (intros (resp & b & [= <-] & Hb'); congruence).
  all: try (intros (resp & b & [=] & _)).
  all: try (intros _; intuition discriminate).
  all: try (intros _; now eauto).
  all: try (intros H; exfalso; apply H; now eauto).
  all: intuition (try discriminate; eauto).
Qed.

Lemma X11_success_is_logged_witness :
  snd (V1.Handler (Sample.worldWith (inr Sample.twoMovies) (inr Sample.badGateway))
                  (Sample.request "Drama, Heist") Sample.fresh)
  = Ret tt.
Proof.
  destruct (X11_success_is_logged
              (Sample.worldWith (inr Sample.twoMovies) (inr Sample.badGateway))
              (Sample.request "Drama, Heist") (Sample.update 7 42 "Drama, Heist")
              Sample.fresh eq_refl ltac:(discriminate))
    as (st' & new & Hrun & _).
  now rewrite Hrun.
Defined.

(** ** What a request does to the network (second revision) *)

Section SecondRevisionObserved.
Context (W : World).

Lemma V2_sendToClient_looks_up (chatID : Z) (text : string) (st : State) :
  text <> "/start" ->
  let api := telegramAPI W in
  let data := replyValues chatID (lookupReply W text st) in
  let st1 := push (EvVisit (lookupURL text)) st in
  let st2 := push (EvPostForm api data) st1 in
  V2.sendToClient W chatID text st
  = match httpPostForm W (events st1) api data with
    | inl _ => (st2, Panicked NilDereference)
    | inr response => (push (EvClose response) st2, Ret tt)
    end.
Proof.
  intros H1. cbv zeta. unfold V2.sendToClient.
  apply String.eqb_neq in H1. rewrite H1.
  change (strings.Split (strings.ReplaceAll text " " EmptyString) ",")
    with (getKeywords text).
  erewrite bind_Ret;
    [|erewrite bind_Ret; [reflexivity | apply getMovies_getKeywords]].
  run_effects. unfold lookupReply, lookupURL.
  destruct (httpPostForm W _ (telegramAPI W) _) as [msg|response]; reflexivity.
Qed.

(** Everything the second revision's [sendToClient] does, however it
    ends. *)
Lemma V2_sendToClient_observed (chatID : Z) (text : string) (st : State) :
  exists st' out new,
    V2.sendToClient W chatID text st = (st', out)
    /\ events st' = (events st ++ new)%list
    /\ readBodies new = []
    /\ Permutation (closed new) (received (answers W (events st) new))
    /\ (forall url data, In (url, data) (posts new) ->
          url = telegramAPI W /\ data !! "chat_id" = Some [strconv.Itoa chatID]).
Proof.
  assert (Hchat : forall t, replyValues chatID t !! "chat_id"
                            = Some [strconv.Itoa chatID])
    by (intros; apply lookup_insert_eq).
  destruct (String.eqb_spec text "/start") as [->|H1].
  - rewrite V2_sendToClient_slash_start. cbv zeta.
    destruct (httpPostForm W (events st) (telegramAPI W) (startValues chatID))
      as [msg|first] eqn:Hfirst;
      [|destruct (httpPostForm W _ (telegramAPI W) (replyValues chatID EmptyString))
          as [msg|second] eqn:Hsecond];
      eexists _, _, _; (split; [reflexivity|]);
      (split; [flatten_events; reflexivity|]); (split; [reflexivity|]);
      cbn [answers app]; rewrite Hfirst;
      try (rewrite events_push in Hsecond; rewrite Hsecond);
      (split; [cbn; try reflexivity; apply Permutation_swap|]);
      cbn; intros url data H; decompose [or] H; try contradiction;
      match goal with E : (_, _) = (_, _) |- _ => injection E as <- <- end;
      (split; [reflexivity | apply Hchat]).
  - rewrite (V2_sendToClient_looks_up chatID text st H1). cbv zeta.
    destruct (httpPostForm W _ (telegramAPI W) _) as [msg|response] eqn:Hpost;
      eexists _, _, _; (split; [reflexivity|]);
      (split; [flatten_events; reflexivity|]); (split; [reflexivity|]);
      cbn [answers app]; rewrite events_push in Hpost; rewrite Hpost;
      (split; [reflexivity|]);
      cbn; intros url data [[= <- <-]|[]];
      (split; [reflexivity | apply Hchat]).
Qed.

End SecondRevisionObserved.

(** X12: in the second revision the start command makes two posts when
    the first is answered: the greeting and then a reply with empty text,
    because the switch falls through to the final post with [movies]
    still empty.  The first revision posts the greeting alone. *)
Theorem X12_start_posts_twice :
  forall (W : World) (chatID : Z) (st : State) (first : Response),
    httpPostForm W (events st) (telegramAPI W) (replyValues chatID greeting)
    = inr first ->
    postedForms (events (fst (V2.sendToClient W chatID "/start" st)))
    = (postedForms (events st)
       ++ [replyValues chatID greeting; replyValues chatID EmptyString])%list
    /\ postedForms (events (fst (V1.sendToClient W chatID "/start" st)))
       = (postedForms (events st) ++ [replyValues chatID greeting])%list.
Proof.
  intros W chatID st first Hfirst. split.
  - rewrite V2_sendToClient_slash_start. cbv zeta.
    unfold startValues. rewrite Hfirst.
    destruct (httpPostForm W _ (telegramAPI W) (replyValues chatID EmptyString));
      cbn [fst]; flatten_events; now rewrite postedForms_app.
  - apply V1_sendToClient_greets. now left.
Qed.

Lemma X12_start_posts_twice_witness :
  postedForms
    (events (fst (V2.sendToClient (Sample.world true true) 42 "/start" Sample.fresh)))
  = [replyValues 42 greeting; replyValues 42 EmptyString].
Proof.
  apply (proj1 (X12_start_posts_twice (Sample.world true true) 42 Sample.fresh
                  {| StatusCode := 200; Body := inr "{}" |} eq_refl)).
Defined.

(** X13: on every text that is not a start command the two revisions
    visit the same page and post the same form. *)
Theorem X13_revisions_agree_on_lookup :
  forall (W : World) (chatID : Z) (text : string) (st : State),
    text <> "/start" -> text <> "start" ->
    posts (events (fst (V1.sendToClient W chatID text st)))
    = posts (events (fst (V2.sendToClient W chatID text st)))
    /\ visited (events (fst (V1.sendToClient W chatID text st)))
       = visited (events (fst (V2.sendToClient W chatID text st))).
Proof.
  intros W chatID text st H1 H2.
  rewrite (V1_sendToClient_looks_up W chatID text st H1 H2),
    (V2_sendToClient_looks_up W chatID text st H1), postAndRead_run.
  cbv zeta.
  destruct (httpPostForm W _ (telegramAPI W) _) as [msg|response];
    [|destruct (Body response)];
    cbn [fst]; flatten_events; rewrite !posts_app, !visited_app; cbn;
    now rewrite ?app_nil_r.
Qed.

Lemma X13_revisions_agree_on_lookup_witness :
  posts (events (fst (V1.sendToClient (Sample.world true true) 42 "drama,heist"
                                      Sample.fresh)))
  = posts (events (fst (V2.sendToClient (Sample.world true true) 42 "drama,heist"
                                        Sample.fresh))).
Proof.
  apply (proj1 (X13_revisions_agree_on_lookup (Sample.world true true) 42
                  "drama,heist" Sample.fresh
                  ltac:(discriminate) ltac:(discriminate))).
Defined.

(** X14: however the second revision's [sendToClient] ends, by returning
    or by its panic, it has closed the body of every response it received
    exactly once (the deferred close runs while the panic unwinds) and
    has read none; and every post it made went to the Telegram address
    with the chat id in decimal as [chat_id]. *)
Theorem X14_second_revision_closes_bodies :
  forall (W : World) (chatID : Z) (text : string) (st : State),
  exists st' out new,
    V2.sendToClient W chatID text st = (st', out)
    /\ events st' = (events st ++ new)%list
    /\ readBodies new = []
    /\ Permutation (closed new) (received (answers W (events st) new))
    /\ (forall url data, In (url, data) (posts new) ->
          url = telegramAPI W /\ data !! "chat_id" = Some [strconv.Itoa chatID]).
Proof. exact V2_sendToClient_observed. Qed.

(** ** Decimal rendering and the printed forms *)

Section PrintedForms.

Lemma bytes_append (s t : string) : bytes (s +:+ t) = (bytes s ++ bytes t)%list.
Proof.
  unfold bytes. induction s as [|c s IH]; [reflexivity|].
  rewrite append_cons. cbn. now rewrite IH.
Qed.

Lemma bytes_inj (s t : string) : bytes s = bytes t -> s = t.
Proof.
  unfold bytes. intros H.
  rewrite <- (string_of_list_ascii_of_string s),
    <- (string_of_list_ascii_of_string t).
  now rewrite H.
Qed.

(** [strconv.Itoa] prints different numbers differently. *)
Lemma Itoa_inj (a b : Z) : strconv.Itoa a = strconv.Itoa b -> a = b.
Proof.
  unfold strconv.Itoa. intros H. apply DecimalZ.to_int_inj.
  assert (Hnil : forall z, Z.to_int z <> Decimal.Pos Decimal.Nil
                           /\ Z.to_int z <> Decimal.Neg Decimal.Nil).
  { intros [|p|p]; cbn; split; try discriminate;
      intros [= Hp]; now apply DecimalPos.Unsigned.to_uint_nonnil in Hp. }
  apply (f_equal NilZero.int_of_string) in H.
  rewrite !NilZero.isi in H by apply Hnil. now injection H.
Qed.

(** It prints digits and a sign only. *)
Lemma string_of_uint_digits (d : Decimal.uint) (c : ascii) :
  In c (bytes (NilEmpty.string_of_uint d)) -> (48 <= N_of_ascii c <= 57)%N.
Proof.
  unfold bytes. induction d; cbn; try tauto;
    (intros [<-|Hin]; [cbn; lia | now apply IHd]).
Qed.

Lemma Itoa_bytes (z : Z) (c : ascii) :
  In c (bytes (strconv.Itoa z)) ->
  c = "-"%char \/ (48 <= N_of_ascii c <= 57)%N.
Proof.
  unfold strconv.Itoa, NilZero.string_of_int, NilZero.string_of_uint.
  destruct (Z.to_int z) as [d|d]; destruct d;
    try (intros H; right; revert H; apply string_of_uint_digits).
  1: { cbn. intros [<-|[]]. right. cbn. lia. }
  1: { cbn. intros [<-|[<-|[]]]; [now left | right; cbn; lia]. }
  all: intros [<-|H]; [now left|]; right; revert H; apply string_of_uint_digits.
Qed.

(** Cutting at the first occurrence of a byte is unambiguous. *)
Lemma first_split (sep : ascii) (d1 d2 r1 r2 : list ascii) :
  ~ In sep d1 -> ~ In sep d2 ->
  (d1 ++ sep :: r1 = d2 ++ sep :: r2)%list -> d1 = d2 /\ r1 = r2.
Proof.
  revert d2. induction d1 as [|a d1 IH]; intros [|b d2] H1 H2 Heq; cbn in *.
  - now injection Heq.
  - injection Heq as <- _. tauto.
  - injection Heq as -> _. tauto.
  - injection Heq as <- Heq.
    destruct (IH d2) as [-> ->]; [tauto | tauto | assumption | now split].
Qed.

Lemma first_split_string (sep : ascii) (d1 d2 r1 r2 : string) :
  ~ In sep (bytes d1) -> ~ In sep (bytes d2) ->
  d1 +:+ String sep r1 = d2 +:+ String sep r2 -> d1 = d2 /\ r1 = r2.
Proof.
  intros H1 H2 H. apply (f_equal bytes) in H. rewrite !bytes_append in H.
  apply (first_split sep _ _ (bytes r1) (bytes r2)) in H as [Hd Hr];
    [|assumption..].
  split; now apply bytes_inj.
Qed.

Lemma append_inv_tail (s1 s2 t : string) : s1 +:+ t = s2 +:+ t -> s1 = s2.
Proof.
  intros H. apply (f_equal bytes) in H. rewrite !bytes_append in H.
  apply app_inv_tail in H. now apply bytes_inj.
Qed.

Lemma Itoa_without (sep : ascii) (z : Z) :
  sep <> "-"%char -> ~ (48 <= N_of_ascii sep <= 57)%N ->
  ~ In sep (bytes (strconv.Itoa z)).
Proof. intros H1 H2 Hin. apply Itoa_bytes in Hin. tauto. Qed.

End PrintedForms.

(** X15: the form posted determines the chat and the text: two replies
    carry the same form only if they go to the same chat with the same
    text, the chat id being printed in decimal without loss. *)
Theorem X15_form_determines_chat :
  forall (chat1 chat2 : Z) (text1 text2 : string),
    replyValues chat1 text1 = replyValues chat2 text2 ->
    chat1 = chat2 /\ text1 = text2.
Proof.
  intros chat1 chat2 text1 text2 H. split.
  - apply Itoa_inj.
    assert (Hc : replyValues chat1 text1 !! "chat_id"
                 = replyValues chat2 text2 !! "chat_id") by now rewrite H.
    unfold replyValues in Hc. rewrite !lookup_insert_eq in Hc. now injection Hc.
  - assert (Ht : replyValues chat1 text1 !! "text"
                 = replyValues chat2 text2 !! "text") by now rewrite H.
    rewrite !replyValues_text in Ht. now injection Ht.
Qed.

Lemma X15_form_determines_chat_witness :
  (42 = 42)%Z /\ "Movie One" = "Movie One".
Proof.
  apply (X15_form_determines_chat 42 42 "Movie One" "Movie One" eq_refl).
Defined.

(** X16: the printed form of a chat and of an audio is unambiguous:
    different chats, and different audios, never print the same. *)
Theorem X16_chat_and_audio_print_apart :
  (forall c1 c2 : Chat, Chat_String c1 = Chat_String c2 -> c1 = c2)
  /\ (forall a1 a2 : Audio, Audio_String a1 = Audio_String a2 -> a1 = a2).
Proof.
  split.
  - intros [id1] [id2] H. unfold Chat_String in H. cbn [ID] in H.
    apply String.app_inj in H. apply (f_equal bytes) in H.
    rewrite !bytes_append in H. apply app_inv_tail in H.
    apply bytes_inj, Itoa_inj in H. now subst.
  - intros [f1 d1] [f2 d2] H. unfold Audio_String in H.
    cbn [Audio_FileID Duration] in H.
    apply String.app_inj in H. apply (f_equal bytes) in H.
    rewrite !bytes_append in H.
    apply (f_equal (@List.rev ascii)) in H.
    rewrite !rev_app_distr in H. cbn [bytes list_ascii_of_string List.rev app] in H.
    rewrite <- !app_assoc in H. cbn [app] in H.
    injection H as H.
    apply first_split in H as [Hd H].
    + injection H as H.
      apply (f_equal (@List.rev ascii)) in Hd, H.
      rewrite !rev_involutive in Hd, H.
      apply bytes_inj in H. apply bytes_inj, Itoa_inj in Hd. now subst.
    + rewrite <- in_rev. apply Itoa_without; [discriminate | cbn; lia].
    + rewrite <- in_rev. apply Itoa_without; [discriminate | cbn; lia].
Qed.

Lemma X16_chat_and_audio_print_apart_witness :
  {| ID := 42 |} = {| ID := 42 |}.
Proof.
  apply (proj1 X16_chat_and_audio_print_apart {| ID := 42 |} {| ID := 42 |} eq_refl).
Defined.

(** X17: the printed form of an update can be taken apart: updates that
    print the same have the same identifier and messages that print the
    same. *)
Theorem X17_update_prints_its_id :
  forall u1 u2 : Update,
    Update_String u1 = Update_String u2 ->
    UpdateID u1 = UpdateID u2
    /\ Message_String (Message_ u1) = Message_String (Message_ u2).
Proof.
  intros u1 u2 H. unfold Update_String in H.
  apply String.app_inj in H.
  rewrite !(append_cons ","%char " message: ") in H.
  apply first_split_string in H as [Hid H].
  - split; [now apply Itoa_inj in Hid|].
    apply String.app_inj in H. now apply append_inv_tail in H.
  - apply Itoa_without; [discriminate | cbn; lia].
  - apply Itoa_without; [discriminate | cbn; lia].
Qed.

Lemma X17_update_prints_its_id_witness :
  UpdateID (Sample.update 7 42 "drama") = UpdateID (Sample.update 7 42 "drama").
Proof.
  apply (X17_update_prints_its_id (Sample.update 7 42 "drama")
           (Sample.update 7 42 "drama") eq_refl).
Defined.

(** X18: the printed form of a document is ambiguous: a file id holding
    the separator prints like another document, whatever the three parts
    are. *)
Theorem X18_document_print_is_ambiguous :
  forall a b c : string,
    Document_String {| Document_FileID := a +:+ ", file name: " +:+ b;
                       FileName := c |}
    = Document_String {| Document_FileID := a;
                         FileName := b +:+ ", file name: " +:+ c |}
    /\ {| Document_FileID := a +:+ ", file name: " +:+ b; FileName := c |}
       <> {| Document_FileID := a; FileName := b +:+ ", file name: " +:+ c |}.
Proof.
  intros a b c. split.
  - unfold Document_String. cbn [Document_FileID FileName].
    now rewrite !append_assoc.
  - intros [= Ha _]. apply (f_equal String.length) in Ha.
    rewrite !length_append in Ha. cbn in Ha. lia.
Qed.

(** ** Trimmed titles *)

Section TrimFacts.

Lemma rev_app_append (s t : string) :
  String.rev_app s t = String.rev_app s EmptyString +:+ t.
Proof.
  revert t. induction s as [|c s IH]; intros t; [reflexivity|].
  cbn [String.rev_app]. rewrite (IH (String c t)), (IH (String c EmptyString)).
  now rewrite append_assoc.
Qed.

Lemma rev_cons (c : ascii) (s : string) :
  String.rev (String c s) = String.rev s +:+ String c EmptyString.
Proof. unfold String.rev. cbn [String.rev_app]. apply rev_app_append. Qed.

Lemma rev_append (s t : string) :
  String.rev (s +:+ t) = String.rev t +:+ String.rev s.
Proof.
  induction s as [|c s IH]; [now rewrite append_nil_l, append_nil_r|].
  now rewrite append_cons, !rev_cons, IH, append_assoc.
Qed.

Lemma rev_rev (s : string) : String.rev (String.rev s) = s.
Proof.
  induction s as [|c s IH]; [reflexivity|].
  now rewrite rev_cons, rev_append, IH.
Qed.

(** What is left by the scan begins with no rune that [width] knows. *)
Lemma trim_scan_width (width : string -> nat) (s : string) (skip : nat) :
  width EmptyString = 0 -> width (strings.trim_scan width skip s) = 0.
Proof.
  intros Hnil. revert skip. induction s as [|c s IH]; intros skip; [exact Hnil|].
  cbn [strings.trim_scan]. destruct skip; [|apply IH].
  destruct (width (String c s)) eqn:Hw; [exact Hw | apply IH].
Qed.

(** It is the end of the string scanned. *)
Lemma trim_scan_suffix (width : string -> nat) (s : string) (skip : nat) :
  exists dropped, s = dropped +:+ strings.trim_scan width skip s.
Proof.
  revert skip. induction s as [|c s IH]; intros skip; [now exists EmptyString|].
  cbn [strings.trim_scan].
  assert (Hdrop : forall k, exists dropped,
               String c s = dropped +:+ strings.trim_scan width k s).
  { intros k. destruct (IH k) as [d Hd]. exists (String c d).
    now rewrite append_cons, <- Hd. }
  destruct skip; [|apply Hdrop].
  destruct (width (String c s)); [now exists EmptyString | apply Hdrop].
Qed.

Lemma trim_scan_fixed (width : string -> nat) (s : string) :
  width s = 0 -> strings.trim_scan width 0 s = s.
Proof. intros H. destruct s as [|c s]; [reflexivity|]. cbn. now rewrite H. Qed.

(** A string that begins with no white-space rune has no beginning that
    does. *)
Lemma leading_space_prefix (p q : string) :
  strings.leading_space (p +:+ q) = 0 -> strings.leading_space p = 0.
Proof.
  destruct p as [|c1 [|c2 [|c3 p]]]; [reflexivity| | |];
    rewrite ?append_cons; cbn [strings.leading_space].
  - destruct (strings.asciiSpace (N_of_ascii c1)); [discriminate | reflexivity].
  - destruct (strings.asciiSpace (N_of_ascii c1)); [discriminate|].
    rewrite append_nil_l. destruct q as [|c q]; [tauto|].
    destruct (strings.space2 (N_of_ascii c1) (N_of_ascii c2));
      [discriminate | reflexivity].
  - tauto.
Qed.

Lemma TrimSpace_trimmed (s : string) :
  strings.leading_space (strings.TrimSpace s) = 0
  /\ strings.trailing_space (String.rev (strings.TrimSpace s)) = 0.
Proof.
  unfold strings.TrimSpace, strings.TrimRightSpace. split.
  - set (t := strings.TrimLeftSpace s).
    assert (Ht : strings.leading_space t = 0) by now apply trim_scan_width.
    destruct (trim_scan_suffix strings.trailing_space (String.rev t) 0) as [d Hd].
    apply (f_equal String.rev) in Hd. rewrite rev_rev, rev_append in Hd.
    rewrite Hd in Ht. now apply leading_space_prefix in Ht.
  - rewrite rev_rev. now apply trim_scan_width.
Qed.

Lemma TrimSpace_fixed (s : string) :
  strings.leading_space s = 0 ->
  strings.trailing_space (String.rev s) = 0 ->
  strings.TrimSpace s = s.
Proof.
  intros H1 H2. unfold strings.TrimSpace, strings.TrimRightSpace, strings.TrimLeftSpace.
  rewrite (trim_scan_fixed _ s H1), (trim_scan_fixed _ _ H2). apply rev_rev.
Qed.

End TrimFacts.

(** X19: every line the callback adds is a title without white space at
    either end, followed by one newline: trimming the title again changes
    nothing. *)
Theorem X19_titles_are_trimmed :
  forall (movies : string) (element : html.Node),
  exists title : string,
    onHeader movies element = movies +:+ title +:+ newline
    /\ strings.leading_space title = 0
    /\ strings.trailing_space (String.rev title) = 0
    /\ strings.TrimSpace title = title.
Proof.
  intros movies element.
  exists (strings.TrimSpace (goquery.Text (goquery.Children [element]))).
  destruct (TrimSpace_trimmed (goquery.Text (goquery.Children [element])))
    as [H1 H2].
  repeat split; try assumption. now apply TrimSpace_fixed.
Qed.

(** ** The handlers on scrape failures, start commands and letter case *)

Section HandlerLookups.
Context (W : World).

Lemma lookupURL_keywords (text k : string) (ks : list string) :
  getKeywords text = k :: ks ->
  lookupURL text = IMDB_URL +:+ Spec.commaJoined k ks.
Proof.
  intros Hk. unfold lookupURL. f_equal.
  rewrite getKeywords_splitOn in Hk. rewrite ReplaceAll_space.
  unfold strings.ReplaceAll. cbn [String.eqb Ascii.eqb Bool.eqb].
  now rewrite replace_scan_pieces, Hk.
Qed.

(** What the second revision's handler visits and posts for a text that
    is not ["/start"]. *)
Lemma V2_Handler_looks_up (r : Request) (u : Update) (st : State) :
  jsonDecode W (Request_Body r) = inr u -> UpdateID u <> 0%Z ->
  let text := strings.ToLower (unicodeLower W) (Text (Message_ u)) in
  let chat := ID (Chat_ (Message_ u)) in
  text <> "/start" ->
  visited (events (fst (V2.Handler W r st)))
  = (visited (events st) ++ [lookupURL text])%list
  /\ postedForms (events (fst (V2.Handler W r st)))
     = (postedForms (events st) ++ [replyValues chat (lookupReply W text st)])%list
  /\ snd (V2.Handler W r st)
     = match httpPostForm W (events st ++ [EvVisit (lookupURL text)])
               (telegramAPI W) (replyValues chat (lookupReply W text st)) with
       | inl _ => Panicked NilDereference
       | inr _ => Ret tt
       end.
Proof.
  intros Hdec Hid text chat H1.
  rewrite (V2_Handler_decoded W r u st Hdec Hid). fold text chat.
  rewrite (V2_sendToClient_looks_up W chat text st H1). cbv zeta.
  rewrite events_push.
  destruct (httpPostForm W _ (telegramAPI W) _); cbn [fst snd];
    flatten_events; rewrite visited_app, postedForms_app; cbn;
    repeat split; reflexivity.
Qed.

(** The same for the first revision, for a text that is no start
    command. *)
Lemma V1_Handler_looks_up (r : Request) (u : Update) (st : State) :
  jsonDecode W (Request_Body r) = inr u -> UpdateID u <> 0%Z ->
  let text := strings.ToLower (unicodeLower W) (Text (Message_ u)) in
  let chat := ID (Chat_ (Message_ u)) in
  text <> "/start" -> text <> "start" ->
  visited (events (fst (V1.Handler W r st)))
  = (visited (events st) ++ [lookupURL text])%list
  /\ postedForms (events (fst (V1.Handler W r st)))
     = (postedForms (events st) ++ [replyValues chat (lookupReply W text st)])%list
  /\ snd (V1.Handler W r st) = Ret tt.
Proof.
  intros Hdec Hid text chat H1 H2.
  destruct (V1_Handler_observed W r u st Hdec Hid)
    as (st' & new & reply & answer & Hrun & Hev & Hposts & _ & _ & _ & _ & _ & Hlookup).
  destruct (Hlookup H1 H2) as [Hvisited ->].
  rewrite Hrun. cbn [fst snd]. rewrite Hev, visited_app, postedForms_app, Hvisited.
  repeat split. f_equal.
  assert (Hforms : postedForms new = map snd (posts new)).
  { clear. unfold postedForms, posts.
    induction new as [|[] new IH]; cbn [omap list_omap map snd]; congruence. }
  now rewrite Hforms, Hposts.
Qed.

End HandlerLookups.

(** ** C6: a failed scrape *)



(** ** C7: the start command *)

(** C7, the claim as stated fails in the second revision, which has no
    check for ["start"]: there the text ["start"] is looked up as a
    keyword and the reply is what was scraped, not the greeting, while
    the first revision greets. *)
Lemma C7_second_revision_looks_start_up :
  visited (events (fst (V2.Handler (Sample.world true true) (Sample.request "start")
                                   Sample.fresh)))
  = [IMDB_URL +:+ "start"]
  /\ postedForms
       (events (fst (V2.Handler (Sample.world true true) (Sample.request "start")
                                Sample.fresh)))
     = [replyValues 42 ("Movie One" +:+ newline +:+ "Movie Two" +:+ newline)]
  /\ ~ In (replyValues 42 greeting)
          (postedForms
             (events (fst (V2.Handler (Sample.world true true)
                                      (Sample.request "start") Sample.fresh))))
  /\ postedForms
       (events (fst (V1.Handler (Sample.world true true) (Sample.request "start")
                                Sample.fresh)))
     = [replyValues 42 greeting].
Proof.
  assert (Hposts :
            postedForms
              (events (fst (V2.Handler (Sample.world true true)
                                       (Sample.request "start") Sample.fresh)))
            = [replyValues 42 ("Movie One" +:+ newline +:+ "Movie Two" +:+ newline)])
    by (vm_compute; reflexivity).
  split; [vm_compute; reflexivity|]. split; [exact Hposts|].
  split; [|vm_compute; reflexivity].
  rewrite Hposts. intros [H|[]].
  apply (f_equal (fun data : Values => data !! "text")) in H.
  rewrite !replyValues_text in H. discriminate.
Qed.

(** C7, amended: a decoded message whose lower-cased text is a start
    command is answered with the greeting, whatever happened before
    ([st] is arbitrary).  In the first revision both ["/start"] and
    ["start"] are start commands, checked on the lower-cased text, and
    run the very same dispatch, which posts the greeting and nothing
    else.  In the second revision ["/start"] alone is a start command,
    and the greeting is the first form posted; the text ["start"] is
    looked up as a keyword like any other text. *)
Theorem C7_start_command_by_revision :
  forall (W : World) (r : Request) (u : Update) (st : State),
    jsonDecode W (Request_Body r) = inr u -> UpdateID u <> 0%Z ->
    let text := strings.ToLower (unicodeLower W) (Text (Message_ u)) in
    let chat := ID (Chat_ (Message_ u)) in
    (text = "/start" \/ text = "start" ->
     postedForms (events (fst (V1.Handler W r st)))
     = (postedForms (events st) ++ [replyValues chat greeting])%list)
    /\ V1.sendToClient W chat "start" st = V1.sendToClient W chat "/start" st
    /\ (text = "/start" ->
        exists more,
          postedForms (events (fst (V2.Handler W r st)))
          = (postedForms (events st) ++ replyValues chat greeting :: more)%list)
    /\ (text = "start" ->
        visited (events (fst (V2.Handler W r st)))
        = (visited (events st) ++ [IMDB_URL +:+ "start"])%list
        /\ postedForms (events (fst (V2.Handler W r st)))
           = (postedForms (events st)
              ++ [replyValues chat
                    (match collyVisit W (events st) (IMDB_URL +:+ "start") with
                     | inl _ => EmptyString
                     | inr doc => scrape doc
                     end)])%list)
    /\ replyValues chat greeting !! "text" = Some [greeting].
Proof.
  intros W r u st Hdec Hid text chat. split; [|split; [|split; [|split]]].
  - intros Htext. rewrite (V1_Handler_posts W r u st Hdec Hid).
    now apply V1_sendToClient_greets.
  - now rewrite V1_sendToClient_start, V1_sendToClient_slash_start.
  - intros Htext. rewrite (V2_Handler_decoded W r u st Hdec Hid).
    fold text chat. rewrite Htext, V2_sendToClient_slash_start. cbv zeta.
    fold (startValues chat).
    destruct (httpPostForm W (events st) (telegramAPI W) (startValues chat))
      as [msg|first];
      [|destruct (httpPostForm W _ (telegramAPI W) (replyValues chat EmptyString))
          as [msg|second]];
      eexists; cbn [fst]; flatten_events; rewrite postedForms_app; reflexivity.
  - intros Htext.
    assert (H1 : text <> "/start") by (rewrite Htext; discriminate).
    destruct (V2_Handler_looks_up W r u st Hdec Hid H1) as (Hvisited & Hposts & _).
    fold text chat in Hvisited, Hposts. rewrite Htext in Hvisited, Hposts.
    split; [exact Hvisited | exact Hposts].
  - apply replyValues_text.
Qed.

Lemma C7_start_command_by_revision_witness :
  postedForms
    (events (fst (V1.Handler (Sample.world true true) (Sample.request "/START")
                             Sample.fresh)))
  = [replyValues 42 greeting].
Proof.
  apply (proj1 (C7_start_command_by_revision (Sample.world true true)
                  (Sample.request "/START") (Sample.update 7 42 "/START")
                  Sample.fresh eq_refl ltac:(discriminate))).
  left. reflexivity.
Defined.

(** ** The letter case of what the handler looks up *)

(** X6: both handlers lower-case the text of the update before anything
    else, so for an accepted update whose text is made of ASCII bytes and
    is no start command, the page the handler visits is the search
    address followed by the keywords of the lower-cased text, joined by
    ["%2C"], and none of these keywords contains an upper-case letter. *)
Theorem X6_handler_looks_up_lower_case :
  forall (W : World) (r : Request) (u : Update) (st : State),
    jsonDecode W (Request_Body r) = inr u -> UpdateID u <> 0%Z ->
    strings.isASCII (Text (Message_ u)) = true ->
    let text := strings.ToLower (unicodeLower W) (Text (Message_ u)) in
    text <> "/start" ->
    exists k ks,
      getKeywords text = k :: ks
      /\ (forall k' c, In k' (k :: ks) -> In c (bytes k') -> isUpper c = false)
      /\ visited (events (fst (V2.Handler W r st)))
         = (visited (events st) ++ [IMDB_URL +:+ Spec.commaJoined k ks])%list
      /\ (text <> "start" ->
          visited (events (fst (V1.Handler W r st)))
          = (visited (events st) ++ [IMDB_URL +:+ Spec.commaJoined k ks])%list).
Proof.
  intros W r u st Hdec Hid Hascii text H1.
  destruct (getKeywords text) as [|k ks] eqn:Hk;
    [now apply getKeywords_nonempty in Hk|].
  exists k, ks. split; [reflexivity|split; [|split]].
  - intros k' c Hk' Hc. rewrite <- Hk in Hk'.
    exact (lowered_keywords _ _ _ _ Hascii Hk' Hc).
  - destruct (V2_Handler_looks_up W r u st Hdec Hid H1) as (Hvisited & _).
    fold text in Hvisited. now rewrite Hvisited, (lookupURL_keywords _ _ _ Hk).
  - intros H2.
    destruct (V1_Handler_looks_up W r u st Hdec Hid H1 H2) as (Hvisited & _).
    fold text in Hvisited. now rewrite Hvisited, (lookupURL_keywords _ _ _ Hk).
Qed.

Lemma X6_handler_looks_up_lower_case_witness :
  visited
    (events (fst (V2.Handler (Sample.world true true) (Sample.request "Drama, HEIST")
                             Sample.fresh)))
  = [IMDB_URL +:+ "drama%2Cheist"].
Proof.
  destruct (X6_handler_looks_up_lower_case (Sample.world true true)
              (Sample.request "Drama, HEIST") (Sample.update 7 42 "Drama, HEIST")
              Sample.fresh eq_refl ltac:(discriminate) eq_refl)
    as (k & ks & Hk & _ & Hvisited & _).
  - intros H. vm_compute in H. discriminate.
  - rewrite Hvisited. vm_compute in Hk. injection Hk as <- <-. reflexivity.
Defined.
